(** * learn-docker: the two demonstration web applications

    A shallow embedding of
      - [02-images-best-practices/app.py]        (module [ImageApp]) and
      - [03-compose-orchestration/webapp/app.py] (module [ComposeApp]),
    followed by the properties of their health and statistics endpoints.

    The handlers talk to PostgreSQL and to Redis.  Both servers are part of
    the model: their stored data lives in the [world], and whatever the
    program cannot control (whether the network operation number [n] goes
    through, what the clock shows) is read from an [env] of oracles.  Python
    exceptions are an explicit [Raise] outcome, so that "caught" and
    "propagated" are different values.  Requests are served one at a time. *)

From Stdlib Require Import ZArith List String Ascii Lia Sorted.
From Stdlib Require Import DecimalString DecimalZ DecimalPos.
From stdpp Require Import base option gmap strings list.

Local Open Scope string_scope.
Local Open Scope Z_scope.

(** ** Python values shared by both applications *)

Module Py.

(** [str(n)] for a Python [int]. *)
Definition str_of_int (n : Z) : string := NilZero.string_of_int (Z.to_int n).

(** Documents handed to [jsonify] and contexts handed to
    [render_template_string].  A [dict] keeps its keys in insertion order, so
    it is an association list.  [JFixed2 h] is the float [h / 100], the only
    kind of float the applications build (always through [round(_, 2)]). *)
#[warnings="-register-all"]
Inductive json : Type :=
| JNull
| JStr (s : string)
| JInt (n : Z)
| JFixed2 (hundredths : Z)
| JObj (fields : list (string * json)).

Abbreviation dict := (list (string * json)).

(** [d[k]] read, as [d.get(k)]. *)
Fixpoint dict_get (k : string) (d : dict) : option json :=
  match d with
  | [] => None
  | (k', v) :: d' => if String.eqb k k' then Some v else dict_get k d'
  end.

(** [d[k] = v]: an existing key keeps its position, a new key goes last. *)
Fixpoint dict_set (k : string) (v : json) (d : dict) : dict :=
  match d with
  | [] => [(k, v)]
  | (k', v') :: d' =>
      if String.eqb k k' then (k', v) :: d' else (k', v') :: dict_set k v d'
  end.

Definition dict_keys (d : dict) : list string := map fst d.

(** The document with one field left out. *)
Definition dict_without (k : string) (d : dict) : dict :=
  List.filter (fun kv => negb (String.eqb k (fst kv))) d.

(** [round(n / d, 2) * 100] for [d > 0]: Python rounds the exact value of the
    float to the nearest hundredth, ties to even.  Callers pass the value
    already multiplied by 100. *)
Definition round_half_even (n d : Z) : Z :=
  let q := n / d in
  let r := n mod d in
  if 2 * r <? d then q
  else if d <? 2 * r then q + 1
  else if Z.even q then q else q + 1.

(** [repr(s)] for a [str] of ASCII characters: in single quotes, or in
    double quotes when the text has a single quote and no double one; the
    quote used and the backslash are escaped, tab, newline and return are
    written with their letter, the other control characters in hexadecimal.
    Bytes beyond ASCII are passed through. *)
Definition hex_digit (n : nat) : ascii :=
  ascii_of_nat (if (n <? 10)%nat then 48 + n else 87 + n).

Definition backslash : ascii := ascii_of_nat 92.

Definition escaped (a : ascii) : string := String backslash (String a EmptyString).

Definition repr_char (quote a : ascii) : string :=
  let n := nat_of_ascii a in
  if Ascii.eqb a quote || Ascii.eqb a backslash then escaped a
  else if (n =? 9)%nat then escaped "t"
  else if (n =? 10)%nat then escaped "n"
  else if (n =? 13)%nat then escaped "r"
  else if (n <? 32)%nat || (n =? 127)%nat
  then escaped "x" ++ String (hex_digit (n / 16)) (String (hex_digit (n mod 16)) EmptyString)
  else String a EmptyString.

Fixpoint has_char (c : ascii) (s : string) : bool :=
  match s with
  | EmptyString => false
  | String a s' => Ascii.eqb a c || has_char c s'
  end.

Fixpoint repr_chars (quote : ascii) (s : string) : string :=
  match s with
  | EmptyString => EmptyString
  | String a s' => repr_char quote a ++ repr_chars quote s'
  end.

Definition repr (s : string) : string :=
  let double := ascii_of_nat 34 in
  let quote := if has_char "'" s && negb (has_char double s) then double else "'"%char in
  String quote (repr_chars quote s ++ String quote EmptyString).

(** [Flask.__version__], which both applications read.  [Flask] is the class
    imported from the package; the version is an attribute of the module
    ([flask.__version__]), the class has none of that name, so the lookup
    finds nothing and raises AttributeError. *)
Definition Flask_version : option string := None.

Definition no_version : string := "type object 'Flask' has no attribute '__version__'".

End Py.

(** ** 02-images-best-practices/app.py *)

Module ImageApp.
Import Py.

(** What the handlers read from the host on one request. *)
Record host := {
  now_isoformat : string;            (* datetime.datetime.now().isoformat() *)
  memory_used : Z;                   (* psutil.virtual_memory().used, bytes *)
  getenv : string -> option string   (* os.environ *)
}.

Definition os_getenv (h : host) (name default : string) : string :=
  match getenv h name with Some v => v | None => default end.

(** [round(psutil.virtual_memory().used / 1024 / 1024, 2)], in hundredths.
    The two divisions by 1024 are exact on a float as long as the number of
    bytes is below 2^53, which is where the model follows the program. *)
Definition memory_mb (h : host) : Z :=
  round_half_even (memory_used h * 100) (1024 * 1024).

(** [@app.route('/health')] *)
Definition health (h : host) : dict :=
  [ ("status", JStr "healthy");
    ("timestamp", JStr (now_isoformat h));
    ("memory_mb", JFixed2 (memory_mb h));
    ("version", JStr (os_getenv h "APP_VERSION" "1.0.0")) ].

(** What [home] and [info] read besides. *)
Record platform := {
  sys_version : string;        (* os.sys.version *)
  nodename : string;           (* os.uname().nodename *)
  cpu_count : option Z;        (* psutil.cpu_count(), None when undetermined *)
  now_strftime : string        (* datetime.datetime.now().strftime('%Y-%m-%d %H:%M:%S') *)
}.

Definition whitespace (a : ascii) : bool :=
  let n := nat_of_ascii a in
  ((9 <=? n) && (n <=? 13) || (28 <=? n) && (n <=? 32))%nat.

Fixpoint skip_whitespace (s : string) : string :=
  match s with
  | String a s' => if whitespace a then skip_whitespace s' else s
  | EmptyString => s
  end.

Fixpoint word (s : string) : string :=
  match s with
  | String a s' => if whitespace a then EmptyString else String a (word s')
  | EmptyString => s
  end.

(** The exceptions a handler of this application can end in. *)
Inductive error : Type :=
| IndexError                      (* [0] of an empty list *)
| AttributeError (msg : string).  (* a name the object does not have *)

(** [s.split()[0]]: the first run of non-blank characters; [None] stands for
    the IndexError of a blank string. *)
Definition first_word (s : string) : option string :=
  match skip_whitespace s with
  | EmptyString => None
  | t => Some (word t)
  end.

Definition int_or_null (n : option Z) : json :=
  match n with Some n => JInt n | None => JNull end.

(** [@app.route('/')]: the context given to the template, or the exception
    the handler raises. *)
Definition home (h : host) (p : platform) : error + dict :=
  match first_word (sys_version p) with
  | None => inl IndexError
  | Some python_version =>
      inr [ ("memory_mb", JFixed2 (memory_mb h));
             ("cpu_count", int_or_null (cpu_count p));
             ("python_version", JStr python_version);
             ("hostname", JStr (nodename p));
             ("timestamp", JStr (now_strftime p));
             ("env", JStr (os_getenv h "ENVIRONMENT" "development"));
             ("debug", JStr (os_getenv h "DEBUG" "false"));
             ("version", JStr (os_getenv h "APP_VERSION" "1.0.0")) ]
  end.

(** [@app.route('/info')]: the values of the dict are computed in the order
    written, so the handler stops at [Flask.__version__]. *)
Definition info (h : host) (p : platform) : error + dict :=
  match Flask_version with
  | None => inl (AttributeError no_version)
  | Some flask_version =>
      inr [ ("python_version", JStr (sys_version p));
            ("flask_version", JStr flask_version);
            ("hostname", JStr (nodename p));
            ("environment", JStr (os_getenv h "ENVIRONMENT" "development"));
            ("debug", JStr (os_getenv h "DEBUG" "false"));
            ("memory_mb", JFixed2 (memory_mb h));
            ("cpu_count", int_or_null (cpu_count p)) ]
  end.

End ImageApp.

(** ** 03-compose-orchestration/webapp/app.py *)

Module ComposeApp.
Import Py.

(** *** Exceptions and the environment *)

(** Why an operation on a dependency fails. *)
Inductive fault : Type := ConnectionFailure | AuthFailure | TimedOut.

(** The exceptions the client libraries and the interpreter raise in this
    program.  All of them derive from Python's [Exception]. *)
Inductive exn : Type :=
| OperationalError (c : fault)          (* psycopg2: the server cannot be reached *)
| UndefinedTable (table : string)       (* psycopg2: relation does not exist *)
| NumericValueOutOfRange                (* psycopg2: integer out of range *)
| StringDataRightTruncation             (* psycopg2: value too long for VARCHAR(n) *)
| RedisError (c : fault)                (* redis: ConnectionError, AuthenticationError, TimeoutError *)
| ResponseError (msg : string)          (* redis: the server refused the command *)
| ValueError (msg : string)             (* psycopg2: a parameter it cannot send *)
| InvalidLiteral (literal : string)     (* ValueError of int() on text that is no integer *)
| AttributeError (msg : string)         (* a name the object does not have *)
| TypeError (msg : string)              (* subscript of None *)
| KeyError (key : string).              (* a dict without the key *)

Definition fault_str (c : fault) : string :=
  match c with
  | ConnectionFailure => "connection refused"
  | AuthFailure => "authentication failed"
  | TimedOut => "timeout expired"
  end.

(** [str(e)], the cause description the handlers print or return.  The
    text of int() shows at most 200 characters of the literal's [repr]. *)
Definition exn_str (e : exn) : string :=
  match e with
  | OperationalError c => "could not connect to server: " ++ fault_str c
  | UndefinedTable t => "relation " ++ t ++ " does not exist"
  | NumericValueOutOfRange => "integer out of range"
  | StringDataRightTruncation => "value too long for type character varying"
  | RedisError c => "Error connecting to Redis: " ++ fault_str c
  | ResponseError m => m
  | ValueError m => m
  | InvalidLiteral s => "invalid literal for int() with base 10: " ++ substring 0 200 (repr s)
  | AttributeError m => m
  | TypeError m => m
  | KeyError k => k
  end.

(** Everything the program reads but does not decide.  The PostgreSQL and
    Redis oracles are indexed by the number of network operations issued so
    far to that server, the clock by the number of readings taken.

    [pg_behind n] is for an INSERT sent as operation [n]: how many of the
    rows already in the table a scan returns after the new row.  It is 0
    when the server puts the row at the end, and more when it reuses space
    that updates and deletes have freed.

    [int_beyond s] is what [int(s)] makes ([None] when it raises) of a text
    that has characters outside ASCII or more than 4300 characters: there
    the answer depends on the interpreter's Unicode tables and on its limit
    on the digits of an integer, both of which change with its version. *)
Record env := {
  pg_fault : nat -> option fault;      (* does PostgreSQL operation [n] fail? *)
  pg_activity : nat -> Z;              (* COUNT of pg_stat_activity seen by operation [n] *)
  pg_version : string;                 (* SELECT version() *)
  pg_behind : nat -> nat;              (* where the INSERT of operation [n] lands *)
  redis_fault : nat -> option fault;   (* does Redis command [n] fail? *)
  redis_info : list (string * string); (* the INFO reply *)
  clock : nat -> Z;                    (* reading [n] of the clock, microseconds since the epoch *)
  isoformat : Z -> string;             (* datetime.isoformat of a clock reading *)
  strftime : Z -> string;              (* strftime('%Y-%m-%d %H:%M:%S') of a clock reading *)
  getenv : string -> option string;    (* os.environ *)
  nodename : string;                   (* os.uname().nodename *)
  python_version : string;             (* os.sys.version.split()[0] *)
  int_beyond : string -> option Z      (* int() outside short ASCII text *)
}.

(** *** The PostgreSQL server *)

(** The columns the program reads or writes; [id] and the timestamps are
    filled in by the server and never selected. *)
Record request_row := {
  ip_address : string;
  user_agent : string;
  endpoint : string
}.

Record metric_row := {
  metric_name : string;
  metric_value : Z
}.

(** A table is [None] until [CREATE TABLE] has run. *)
Record database := {
  requests : option (list request_row);
  metrics : option (list metric_row);
  other_tables : nat      (* public tables that are not the program's *)
}.

(** *** The Redis server *)

Record entry := {
  value : string;
  ttl : option Z          (* seconds left to live; [None] never expires *)
}.

(** *** The world *)

Record world := {
  db : database;                  (* committed state of PostgreSQL *)
  cache : gmap string entry;      (* keys held by Redis *)
  pg_ops : nat;                   (* PostgreSQL operations issued so far *)
  redis_ops : nat;                (* Redis commands issued so far *)
  clock_reads : nat;              (* clock readings taken so far *)
  stdout : list string            (* lines written by print *)
}.

Definition set_db (d : database) (w : world) : world :=
  {| db := d; cache := cache w; pg_ops := pg_ops w; redis_ops := redis_ops w;
     clock_reads := clock_reads w; stdout := stdout w |}.

Definition set_cache (c : gmap string entry) (w : world) : world :=
  {| db := db w; cache := c; pg_ops := pg_ops w; redis_ops := redis_ops w;
     clock_reads := clock_reads w; stdout := stdout w |}.

Definition tick_pg (w : world) : world :=
  {| db := db w; cache := cache w; pg_ops := S (pg_ops w); redis_ops := redis_ops w;
     clock_reads := clock_reads w; stdout := stdout w |}.

Definition tick_redis (w : world) : world :=
  {| db := db w; cache := cache w; pg_ops := pg_ops w; redis_ops := S (redis_ops w);
     clock_reads := clock_reads w; stdout := stdout w |}.

Definition tick_clock (w : world) : world :=
  {| db := db w; cache := cache w; pg_ops := pg_ops w; redis_ops := redis_ops w;
     clock_reads := S (clock_reads w); stdout := stdout w |}.

Definition write_line (s : string) (w : world) : world :=
  {| db := db w; cache := cache w; pg_ops := pg_ops w; redis_ops := redis_ops w;
     clock_reads := clock_reads w; stdout := (stdout w ++ [s])%list |}.

(** *** Computations: a reader of [env], a state of [world], and exceptions *)

Inductive outcome (A : Type) : Type :=
| Return (a : A)
| Raise (e : exn).
Arguments Return {A} a.
Arguments Raise {A} e.

Definition M (A : Type) : Type := env -> world -> outcome A * world.

Definition ret {A} (a : A) : M A := fun _ w => (Return a, w).

Definition bind {A B} (m : M A) (k : A -> M B) : M B :=
  fun e w =>
    match m e w with
    | (Return a, w') => k a e w'
    | (Raise x, w') => (Raise x, w')
    end.

Definition raise {A} (x : exn) : M A := fun _ w => (Raise x, w).

(** [try: body  except Exception as e: handler e].  What [body] did to the
    world before raising stays done. *)
Definition try_except {A} (body : M A) (handler : exn -> M A) : M A :=
  fun e w =>
    match body e w with
    | (Return a, w') => (Return a, w')
    | (Raise x, w') => handler x e w'
    end.

Definition ask : M env := fun e w => (Return e, w).
Definition get_world : M world := fun _ w => (Return w, w).
Definition modify (f : world -> world) : M unit := fun _ w => (Return tt, f w).

Notation "x <- m ;; k" := (bind m (fun x => k))
  (at level 100, m at next level, right associativity).
Notation "m ;;; k" := (bind m (fun _ => k))
  (at level 100, right associativity).

Definition print (s : string) : M unit := modify (write_line s).

(** [time.time()] and [datetime.now()]: one reading of the clock each. *)
Definition read_clock : M Z :=
  e <- ask ;; w <- get_world ;;
  modify tick_clock ;;;
  ret (clock e (clock_reads w)).

Definition os_getenv (name default : string) : M string :=
  e <- ask ;;
  ret (match getenv e name with Some v => v | None => default end).


(** *** psycopg2 *)

(** An open connection: the database as its transaction sees it.  The
    program has one connection open at a time, so the transaction starts from
    the committed state and nobody else commits meanwhile. *)
Record connection := { pending : database }.

Inductive cell : Type := CInt (n : Z) | CText (s : string).
Abbreviation row := (list cell).

(** The statements the program sends, one constructor per SQL text. *)
Inductive sql : Type :=
| CreateRequestsTable      (* CREATE TABLE IF NOT EXISTS requests (...) *)
| CreateMetricsTable       (* CREATE TABLE IF NOT EXISTS metrics (...) *)
| InsertMetric (name : string) (v : Z)
                           (* INSERT INTO metrics (metric_name, metric_value) VALUES (..) ON CONFLICT DO NOTHING *)
| InsertRequest (ip ua ep : string)
                           (* INSERT INTO requests (ip_address, user_agent, endpoint) VALUES (%s, %s, %s) *)
| IncrementTotalRequests   (* UPDATE metrics SET metric_value = metric_value + 1 WHERE metric_name = 'total_requests' *)
| CountPublicTables        (* SELECT COUNT( * ) FROM information_schema.tables WHERE table_schema = 'public' *)
| SelectTotalRequests      (* SELECT metric_value FROM metrics WHERE metric_name = 'total_requests' *)
| CountActivity            (* SELECT COUNT( * ) FROM pg_stat_activity *)
| SelectVersion            (* SELECT version() *)
| CountRequests.           (* SELECT COUNT( * ) FROM requests *)

Definition int4_max : Z := 2147483647.

Definition is_total_requests (r : metric_row) : bool :=
  String.eqb (metric_name r) "total_requests".

Definition increment (r : metric_row) : metric_row :=
  if is_total_requests r
  then {| metric_name := metric_name r; metric_value := metric_value r + 1 |}
  else r.

Definition table_count_of (d : database) : Z :=
  (if bool_decide (is_Some (requests d)) then 1 else 0)
  + (if bool_decide (is_Some (metrics d)) then 1 else 0)
  + Z.of_nat (other_tables d).

Fixpoint all_spaces (s : string) : bool :=
  match s with
  | EmptyString => true
  | String a s' => Ascii.eqb a " " && all_spaces s'
  end.

(** What a VARCHAR(n) column stores for a value: the value itself when it
    has at most [n] characters, its first [n] characters when everything
    beyond them is spaces; any other value is refused. *)
Definition varchar (n : nat) (s : string) : option string :=
  if all_spaces (substring n (String.length s - n)%nat s)
  then Some (substring 0 n s)
  else None.

(** A new row in a table of which a scan returns [behind] rows after it. *)
Definition insert_row {A} (behind : nat) (x : A) (rows : list A) : list A :=
  let before := (length rows - behind)%nat in
  (take before rows ++ x :: drop before rows)%list.

(** What the server does with one statement: the new state of the
    transaction and the rows returned, or the error.  The primary key of both
    tables is the generated [id], so [ON CONFLICT DO NOTHING] never finds a
    conflict and every [INSERT] adds a row.

    [metrics] is kept in the order in which a scan returns its rows, which
    is what a SELECT without ORDER BY shows.  The UPDATE rewrites the rows
    it matches in that order and so keeps them in it; where an INSERT puts
    its row among the others is for the server to choose ([behind]).
    [requests] is only ever counted; it is kept in the order of the [id]s. *)
Definition run_sql (q : sql) (activity : Z) (version : string) (behind : nat) (d : database)
  : exn + database * list row :=
  match q with
  | CreateRequestsTable =>
      inr ({| requests := Some (default [] (requests d)); metrics := metrics d;
              other_tables := other_tables d |}, [])
  | CreateMetricsTable =>
      inr ({| requests := requests d; metrics := Some (default [] (metrics d));
              other_tables := other_tables d |}, [])
  | InsertMetric name v =>
      match metrics d with
      | None => inl (UndefinedTable "metrics")
      | Some rows =>
          match varchar 100 name with
          | None => inl StringDataRightTruncation
          | Some name =>
              if (v <? - int4_max - 1) || (int4_max <? v) then inl NumericValueOutOfRange
              else inr ({| requests := requests d;
                           metrics := Some (insert_row behind
                                              {| metric_name := name; metric_value := v |} rows);
                           other_tables := other_tables d |}, [])
          end
      end
  | InsertRequest ip ua ep =>
      match requests d with
      | None => inl (UndefinedTable "requests")
      | Some rows =>
          match varchar 45 ip, varchar 255 ep with
          | Some ip, Some ep =>
              inr ({| requests := Some (rows ++ [{| ip_address := ip; user_agent := ua;
                                                    endpoint := ep |}])%list;
                      metrics := metrics d;
                      other_tables := other_tables d |}, [])
          | _, _ => inl StringDataRightTruncation
          end
      end
  | IncrementTotalRequests =>
      match metrics d with
      | None => inl (UndefinedTable "metrics")
      | Some rows =>
          if existsb (fun r => is_total_requests r && (int4_max <? metric_value r + 1)) rows
          then inl NumericValueOutOfRange
          else inr ({| requests := requests d; metrics := Some (map increment rows);
                       other_tables := other_tables d |}, [])
      end
  | CountPublicTables => inr (d, [[CInt (table_count_of d)]])
  | SelectTotalRequests =>
      match metrics d with
      | None => inl (UndefinedTable "metrics")
      | Some rows =>
          inr (d, map (fun r => [CInt (metric_value r)]) (List.filter is_total_requests rows))
      end
  | CountActivity => inr (d, [[CInt activity]])
  | SelectVersion => inr (d, [[CText version]])
  | CountRequests =>
      match requests d with
      | None => inl (UndefinedTable "requests")
      | Some rows => inr (d, [[CInt (Z.of_nat (length rows))]])
      end
  end.

(** [psycopg2.connect] with the keyword arguments of [DB_CONFIG] *)
Definition psycopg2_connect : M connection :=
  e <- ask ;; w <- get_world ;;
  modify tick_pg ;;;
  match pg_fault e (pg_ops w) with
  | Some c => raise (OperationalError c)
  | None => ret {| pending := db w |}
  end.

(** The values passed to [cur.execute] beside the SQL text. *)
Definition parameters (q : sql) : list string :=
  match q with
  | InsertRequest ip ua ep => [ip; ua; ep]
  | _ => []
  end.

Fixpoint has_nul (s : string) : bool :=
  match s with
  | EmptyString => false
  | String a s' => Ascii.eqb a Ascii.zero || has_nul s'
  end.

(** [cur.execute(q)]: the connection after the statement and the result set
    the cursor holds.  The client first writes the parameters into the
    statement, and refuses a text with a NUL character before anything is
    sent. *)
Definition execute (conn : connection) (q : sql) : M (connection * list row) :=
  if existsb has_nul (parameters q)
  then raise (ValueError "A string literal cannot contain NUL (0x00) characters.")
  else
    e <- ask ;; w <- get_world ;;
    modify tick_pg ;;;
    match pg_fault e (pg_ops w) with
    | Some c => raise (OperationalError c)
    | None =>
        match run_sql q (pg_activity e (pg_ops w)) (pg_version e) (pg_behind e (pg_ops w))
                      (pending conn) with
        | inl x => raise x
        | inr (d, rows) => ret ({| pending := d |}, rows)
        end
    end.

(** [conn.commit()] *)
Definition commit (conn : connection) : M unit :=
  e <- ask ;; w <- get_world ;;
  modify tick_pg ;;;
  match pg_fault e (pg_ops w) with
  | Some c => raise (OperationalError c)
  | None => modify (set_db (pending conn))
  end.

(** [cur.close()] and [conn.close()]: what was not committed is dropped. *)
Definition cur_close : M unit := ret tt.
Definition conn_close (conn : connection) : M unit := ret tt.

(** [cur.fetchone()] *)
Definition fetchone (rows : list row) : option row := head rows.

Definition cell_json (c : cell) : json :=
  match c with CInt n => JInt n | CText s => JStr s end.

(** [r[0]] for what [fetchone] returned. *)
Definition subscript0 (r : option row) : M json :=
  match r with
  | Some (c :: _) => ret (cell_json c)
  | Some [] => raise (TypeError "tuple index out of range")
  | None => raise (TypeError "'NoneType' object is not subscriptable")
  end.

(** *** redis *)

(** The client object [redis.Redis(host=.., port=.., decode_responses=True)].
    Building it sends nothing; every command goes to the server. *)
Inductive redis_client : Type := Redis.

Definition int8_max : Z := 9223372036854775807.

(** How the server reads a stored string as an integer: the canonical
    decimal form of a 64-bit number and nothing else. *)
Definition redis_int (s : string) : option Z :=
  match NilZero.int_of_string s with
  | Some d =>
      let n := Z.of_int d in
      if String.eqb (str_of_int n) s && (- int8_max - 1 <=? n) && (n <=? int8_max)
      then Some n else None
  | None => None
  end.

(** One command: subject to the network, then served on the key space. *)
Definition redis_command {A} (serve : gmap string entry -> exn + gmap string entry * A) : M A :=
  e <- ask ;; w <- get_world ;;
  modify tick_redis ;;;
  match redis_fault e (redis_ops w) with
  | Some c => raise (RedisError c)
  | None =>
      match serve (cache w) with
      | inl x => raise x
      | inr (c, a) => modify (set_cache c) ;;; ret a
      end
  end.

(** [r.ping()] *)
Definition ping (r : redis_client) : M bool :=
  redis_command (fun c => inr (c, true)).

(** [r.incr(key)] *)
Definition incr (r : redis_client) (key : string) : M Z :=
  redis_command (fun c =>
    match c !! key with
    | None => inr (<[key := {| value := "1"; ttl := None |}]> c, 1)
    | Some en =>
        match redis_int (value en) with
        | None => inl (ResponseError "value is not an integer or out of range")
        | Some n =>
            if int8_max <=? n
            then inl (ResponseError "increment or decrement would overflow")
            else inr (<[key := {| value := str_of_int (n + 1); ttl := ttl en |}]> c, n + 1)
        end
    end).

(** [r.get(key)], decoded to [str] or [None]. *)
Definition get (r : redis_client) (key : string) : M (option string) :=
  redis_command (fun c => inr (c, value <$> c !! key)).

(** [r.setex(key, seconds, v)] *)
Definition setex (r : redis_client) (key : string) (seconds : Z) (v : string) : M bool :=
  redis_command (fun c =>
    if seconds <=? 0
    then inl (ResponseError "invalid expire time in 'setex' command")
    else inr (<[key := {| value := v; ttl := Some seconds |}]> c, true)).

(** [r.info()] *)
Definition info (r : redis_client) : M (list (string * string)) :=
  e <- ask ;;
  redis_command (fun c => inr (c, redis_info e)).

(** [r.dbsize()] *)
Definition dbsize (r : redis_client) : M Z :=
  redis_command (fun c => inr (c, Z.of_nat (size c))).

(** [info.get(k)] on the INFO reply. *)
Fixpoint info_get (k : string) (i : list (string * string)) : option string :=
  match i with
  | [] => None
  | (k', v) :: i' => if String.eqb k k' then Some v else info_get k i'
  end.

(** Time passing on the Redis server between two requests: keys whose time
    to live runs out are gone, the others are [secs] seconds older.  The
    commands of one request are served with no time passing between them. *)
Definition age (secs : Z) (en : entry) : option entry :=
  match ttl en with
  | None => Some en
  | Some t => if secs <? t then Some {| value := value en; ttl := Some (t - secs) |} else None
  end.

Definition elapse (secs : Z) (w : world) : world :=
  set_cache (omap (age secs) (cache w)) w.


(** *** Python's [int(s)] for a [str] *)

Definition is_space (a : ascii) : bool :=
  let n := nat_of_ascii a in
  ((9 <=? n) && (n <=? 13) || (28 <=? n) && (n <=? 32))%nat.

Definition is_digit (a : ascii) : bool :=
  let n := nat_of_ascii a in ((48 <=? n) && (n <=? 57))%nat.

Fixpoint lstrip (s : string) : string :=
  match s with
  | String a s' => if is_space a then lstrip s' else s
  | EmptyString => s
  end.

Fixpoint rstrip (s : string) : string :=
  match s with
  | String a s' =>
      match rstrip s' with
      | EmptyString => if is_space a then EmptyString else String a EmptyString
      | t => String a t
      end
  | EmptyString => s
  end.

Fixpoint all_ascii (s : string) : bool :=
  match s with
  | EmptyString => true
  | String a s' => (nat_of_ascii a <? 128)%nat && all_ascii s'
  end.

(** Decimal digits, single underscores allowed between two digits. *)
Fixpoint digits (s : string) (acc : Z) (after_digit : bool) : option Z :=
  match s with
  | EmptyString => if after_digit then Some acc else None
  | String a s' =>
      if is_digit a then digits s' (acc * 10 + (Z.of_nat (nat_of_ascii a) - 48)) true
      else if Ascii.eqb a "_" && after_digit then digits s' acc false
      else None
  end.

(** What [int(s)] makes of a literal, [None] when it raises: blanks around
    it are dropped, then come an optional sign and the digits.  That is for
    ASCII text of at most 4300 characters, which every version of the
    interpreter reads alike; other text is read as the environment says. *)
Definition int_literal (e : env) (s : string) : option Z :=
  if all_ascii s && (String.length s <=? 4300)%nat
  then
    let t := rstrip (lstrip s) in
    match t with
    | String "-" u => Z.opp <$> digits u 0 false
    | String "+" u => digits u 0 false
    | _ => digits t 0 false
    end
  else int_beyond e s.

Definition int_of_str (s : string) : M Z :=
  e <- ask ;;
  match int_literal e s with
  | Some n => ret n
  | None => raise (InvalidLiteral s)
  end.

(** *** Helpers of the program *)

(** The part of [flask.request] the program reads.  The server hands
    addresses and header values over as text of one-byte characters, so the
    length of a [string] is the number of characters the database counts. *)
Record request := {
  remote_addr : string;                 (* request.remote_addr *)
  headers_user_agent : option string    (* request.headers.get('User-Agent') *)
}.

(** [def get_db_connection()] *)
Definition get_db_connection : M (option connection) :=
  try_except
    (conn <- psycopg2_connect ;;
     ret (Some conn))
    (fun e =>
     print ("Database connection error: " ++ exn_str e) ;;;
     ret None).

(** [def get_redis_connection()] *)
Definition get_redis_connection : M (option redis_client) :=
  try_except
    (let r := Redis in
     ping r ;;;
     ret (Some r))
    (fun e =>
     print ("Redis connection error: " ++ exn_str e) ;;;
     ret None).

(** [def initialize_database()] *)
Definition initialize_database : M unit :=
  conn <- get_db_connection ;;
  match conn with
  | Some conn =>
      try_except
        (r <- execute conn CreateRequestsTable ;; let conn := fst r in
         r <- execute conn CreateMetricsTable ;; let conn := fst r in
         r <- execute conn (InsertMetric "total_requests" 0) ;; let conn := fst r in
         r <- execute conn (InsertMetric "db_connections" 0) ;; let conn := fst r in
         commit conn ;;;
         cur_close ;;;
         conn_close conn ;;;
         print "Database initialized successfully")
        (fun e => print ("Database initialization error: " ++ exn_str e))
  | None => ret tt
  end.

(** [def log_request(endpoint)], inside a request. *)
Definition log_request (endpoint : string) (req : request) : M unit :=
  conn <- get_db_connection ;;
  match conn with
  | Some conn =>
      try_except
        (r <- execute conn
                (InsertRequest (remote_addr req)
                               (default "Unknown" (headers_user_agent req))
                               endpoint) ;;
         let conn := fst r in
         r <- execute conn IncrementTotalRequests ;; let conn := fst r in
         commit conn ;;;
         cur_close ;;;
         conn_close conn)
        (fun e => print ("Request logging error: " ++ exn_str e))
  | None => ret tt
  end.

(** One statement of a [try] block that works on the local dict [stats]:
    run [m]; if it raises, leave the block and run the [except] clause on
    the dict as it is at that point, otherwise go on with [k]. *)
Definition attempt {A} (stats : dict) (except : dict -> M dict)
    (m : M A) (k : A -> M dict) : M dict :=
  fun e w =>
    match m e w with
    | (Return a, w') => k a e w'
    | (Raise _, w') => except stats e w'
    end.

(** The database half of [get_system_stats]. *)
Definition database_stats (stats : dict) : M dict :=
  conn <- get_db_connection ;;
  match conn with
  | Some conn =>
      let except (stats : dict) : M dict :=
        let stats := dict_set "db_status" (JStr "ERROR") stats in
        let stats := dict_set "db_status_class" (JStr "status-error") stats in
        let stats := dict_set "table_count" (JInt 0) stats in
        let stats := dict_set "total_requests" (JInt 0) stats in
        let stats := dict_set "db_connections" (JInt 0) stats in
        ret stats in
      attempt stats except (execute conn CountPublicTables) (fun r =>
      let conn := fst r in
      attempt stats except (subscript0 (fetchone (snd r))) (fun n =>
      let stats := dict_set "table_count" n stats in
      attempt stats except (execute conn SelectTotalRequests) (fun r =>
      let conn := fst r in
      let result := fetchone (snd r) in
      attempt stats except
        (match result with Some _ => subscript0 result | None => ret (JInt 0) end) (fun n =>
      let stats := dict_set "total_requests" n stats in
      attempt stats except (execute conn CountActivity) (fun r =>
      let conn := fst r in
      attempt stats except (subscript0 (fetchone (snd r))) (fun n =>
      let stats := dict_set "db_connections" n stats in
      attempt stats except (cur_close ;;; conn_close conn) (fun _ =>
      let stats := dict_set "db_status" (JStr "CONNECTED") stats in
      let stats := dict_set "db_status_class" (JStr "status-healthy") stats in
      ret stats)))))))
  | None =>
      let stats := dict_set "db_status" (JStr "DISCONNECTED") stats in
      let stats := dict_set "db_status_class" (JStr "status-error") stats in
      let stats := dict_set "table_count" (JInt 0) stats in
      let stats := dict_set "total_requests" (JInt 0) stats in
      let stats := dict_set "db_connections" (JInt 0) stats in
      ret stats
  end.

(** The Redis half of [get_system_stats]. *)
Definition redis_stats (stats : dict) : M dict :=
  r <- get_redis_connection ;;
  match r with
  | Some r =>
      let except (stats : dict) : M dict :=
        let stats := dict_set "redis_status" (JStr "ERROR") stats in
        let stats := dict_set "redis_status_class" (JStr "status-error") stats in
        let stats := dict_set "redis_memory" (JStr "N/A") stats in
        let stats := dict_set "redis_keys" (JInt 0) stats in
        let stats := dict_set "cache_hits" (JInt 0) stats in
        ret stats in
      attempt stats except (info r) (fun i =>
      let stats := dict_set "redis_status" (JStr "CONNECTED") stats in
      let stats := dict_set "redis_status_class" (JStr "status-healthy") stats in
      let stats := dict_set "redis_memory" (JStr (default "N/A" (info_get "used_memory_human" i))) stats in
      attempt stats except (dbsize r) (fun n =>
      let stats := dict_set "redis_keys" (JInt n) stats in
      attempt stats except (get r "cache_hits") (fun v =>
      attempt stats except
        (match v with
         | Some (String a s) => int_of_str (String a s)
         | _ => ret 0       (* [None or 0] and [str() or 0] *)
         end) (fun n =>
      let stats := dict_set "cache_hits" (JInt n) stats in
      ret stats))))
  | None =>
      let stats := dict_set "redis_status" (JStr "DISCONNECTED") stats in
      let stats := dict_set "redis_status_class" (JStr "status-error") stats in
      let stats := dict_set "redis_memory" (JStr "N/A") stats in
      let stats := dict_set "redis_keys" (JInt 0) stats in
      let stats := dict_set "cache_hits" (JInt 0) stats in
      ret stats
  end.

(** [def get_system_stats()] *)
Definition get_system_stats : M dict :=
  let stats : dict := [] in
  stats <- database_stats stats ;;
  stats <- redis_stats stats ;;
  ret stats.


(** *** Request handlers *)

(** [d[k]] *)
Definition subscript (d : dict) (k : string) : M json :=
  match dict_get k d with
  | Some v => ret v
  | None => raise (KeyError k)
  end.

Definition nl : string := String (ascii_of_nat 10) EmptyString.

(** How an f-string shows a value; only strings are shown in this program. *)
Definition format (v : json) : string :=
  match v with
  | JStr s => s
  | JInt n => str_of_int n
  | JNull => "None"
  | _ => ""
  end.

(** [d[k1][k2] = v] *)
Definition dict_set_in (k1 k2 : string) (v : json) (d : dict) : dict :=
  match dict_get k1 d with
  | Some (JObj inner) => dict_set k1 (JObj (dict_set k2 v inner)) d
  | _ => d
  end.

(** [@app.route('/')].  The page is the context given to the template.  The
    text [system_info] is put together first, and its parts are computed in
    the order written: the lookup of [Flask.__version__] comes before the two
    statuses are read from [stats]. *)
Definition home (req : request) : M dict :=
  start_time <- read_clock ;;
  log_request "/" req ;;;
  (* Increment cache hits *)
  r <- get_redis_connection ;;
  match r with
  | Some r => incr r "cache_hits" ;;; ret tt
  | None => ret tt
  end ;;;
  stats <- get_system_stats ;;
  e <- ask ;;
  db_host <- os_getenv "DB_HOST" "database" ;;
  db_name <- os_getenv "DB_NAME" "webapp" ;;
  redis_host <- os_getenv "REDIS_HOST" "cache" ;;
  flask_env <- os_getenv "FLASK_ENV" "development" ;;
  flask_version <- match Flask_version with
                   | Some v => ret v
                   | None => raise (AttributeError no_version)
                   end ;;
  db_status <- subscript stats "db_status" ;;
  redis_status <- subscript stats "redis_status" ;;
  let system_info :=
    "Environment Variables:" ++ nl
    ++ "DB_HOST: " ++ db_host ++ nl
    ++ "DB_NAME: " ++ db_name ++ nl
    ++ "REDIS_HOST: " ++ redis_host ++ nl
    ++ "FLASK_ENV: " ++ flask_env ++ nl ++ nl
    ++ "Container Information:" ++ nl
    ++ "Hostname: " ++ nodename e ++ nl
    ++ "Python Version: " ++ python_version e ++ nl
    ++ "Flask Version: " ++ flask_version ++ nl ++ nl
    ++ "Service Status:" ++ nl
    ++ "Database: " ++ format db_status ++ nl
    ++ "Redis: " ++ format redis_status ++ nl in
  end_time <- read_clock ;;
  let response_time := round_half_even (end_time - start_time) 10 in
  version <- os_getenv "APP_VERSION" "1.0.0" ;;
  uptime <- read_clock ;;
  now <- read_clock ;;
  ret ([ ("hostname", JStr (nodename e));
         ("environment", JStr flask_env);
         ("version", JStr version);
         ("uptime", JInt (Z.quot uptime 1000000));
         ("timestamp", JStr (strftime e now));
         ("db_host", JStr db_host);
         ("db_name", JStr db_name);
         ("redis_host", JStr redis_host);
         ("response_time", JFixed2 response_time);
         ("system_info", JStr system_info) ] ++ stats)%list.

(** [@app.route('/health')] *)
Definition health (req : request) : M dict :=
  log_request "/health" req ;;;
  now <- read_clock ;;
  e <- ask ;;
  let health_status : dict :=
    [ ("status", JStr "healthy");
      ("timestamp", JStr (isoformat e now));
      ("services", JObj []) ] in
  (* Check database *)
  conn <- get_db_connection ;;
  health_status <-
    match conn with
    | Some conn =>
        let health_status := dict_set_in "services" "database" (JStr "healthy") health_status in
        conn_close conn ;;;
        ret health_status
    | None =>
        let health_status := dict_set_in "services" "database" (JStr "unhealthy") health_status in
        let health_status := dict_set "status" (JStr "degraded") health_status in
        ret health_status
    end ;;
  (* Check Redis *)
  r <- get_redis_connection ;;
  health_status <-
    match r with
    | Some r =>
        let health_status := dict_set_in "services" "redis" (JStr "healthy") health_status in
        ret health_status
    | None =>
        let health_status := dict_set_in "services" "redis" (JStr "unhealthy") health_status in
        let health_status := dict_set "status" (JStr "degraded") health_status in
        ret health_status
    end ;;
  ret health_status.

(** [@app.route('/api/test-db')] *)
Definition test_db (req : request) : M dict :=
  log_request "/api/test-db" req ;;;
  conn <- get_db_connection ;;
  match conn with
  | Some conn =>
      try_except
        (r <- execute conn SelectVersion ;; let conn := fst r in
         version <- subscript0 (fetchone (snd r)) ;;
         r <- execute conn CountRequests ;; let conn := fst r in
         request_count <- subscript0 (fetchone (snd r)) ;;
         cur_close ;;;
         conn_close conn ;;;
         now <- read_clock ;;
         e <- ask ;;
         ret [ ("status", JStr "success");
               ("database_version", version);
               ("total_requests", request_count);
               ("timestamp", JStr (isoformat e now)) ])
        (fun x => ret [ ("status", JStr "error"); ("message", JStr (exn_str x)) ])
  | None =>
      ret [ ("status", JStr "error"); ("message", JStr "Cannot connect to database") ]
  end.

Definition str_or_null (v : option string) : json :=
  match v with Some s => JStr s | None => JNull end.

(** The key [f"test:{int(time.time())}"] for a clock reading. *)
Definition test_key_at (t : Z) : string := "test:" ++ str_of_int (Z.quot t 1000000).

(** [@app.route('/api/test-cache')] *)
Definition test_cache (req : request) : M dict :=
  log_request "/api/test-cache" req ;;;
  r <- get_redis_connection ;;
  match r with
  | Some r =>
      try_except
        (e <- ask ;;
         t <- read_clock ;;
         let test_key := test_key_at t in
         now <- read_clock ;;
         let test_value := "Hello from Redis at " ++ isoformat e now in
         setex r test_key 60 test_value ;;;    (* Expire in 60 seconds *)
         retrieved_value <- get r test_key ;;
         i <- info r ;;
         total_keys <- dbsize r ;;
         now <- read_clock ;;
         ret [ ("status", JStr "success");
               ("test_key", JStr test_key);
               ("test_value", JStr test_value);
               ("retrieved_value", str_or_null retrieved_value);
               ("redis_version", str_or_null (info_get "redis_version" i));
               ("memory_usage", str_or_null (info_get "used_memory_human" i));
               ("total_keys", JInt total_keys);
               ("timestamp", JStr (isoformat e now)) ])
        (fun x => ret [ ("status", JStr "error"); ("message", JStr (exn_str x)) ])
  | None =>
      ret [ ("status", JStr "error"); ("message", JStr "Cannot connect to Redis") ]
  end.

(** [@app.route('/api/stats')] *)
Definition api_stats (req : request) : M dict :=
  log_request "/api/stats" req ;;;
  get_system_stats.

(** Successive requests to one handler, nothing else touching the servers
    in between: the outcomes in order.  A handler that raises answers its own
    request with a server error; the next request is served all the same. *)
Fixpoint serve (handler : request -> M dict) (reqs : list request)
    (e : env) (w : world) : list (outcome dict) * world :=
  match reqs with
  | [] => ([], w)
  | req :: reqs' =>
      let (o, w') := handler req e w in
      let (os, w'') := serve handler reqs' e w' in
      (o :: os, w'')
  end.

(** *** Reading the responses *)

(** The per-dependency entries of a /health document. *)
Definition services_of (doc : dict) : dict :=
  match dict_get "services" doc with
  | Some (JObj checks) => checks
  | _ => []
  end.

(** The entry /health writes for a dependency that was or was not reached. *)
Definition verdict (reachable : bool) : json :=
  JStr (if reachable then "healthy" else "unhealthy").

(** The outcomes of the two probes of a /health request, database first.
    The request is logged before anything is probed; the database probe is
    the next PostgreSQL operation, the Redis probe the next Redis command. *)
Definition probe_outcomes (req : request) (e : env) (w : world) : bool * bool :=
  let w1 := snd (log_request "/health" req e w) in
  (bool_decide (pg_fault e (pg_ops w1) = None),
   bool_decide (redis_fault e (redis_ops w1) = None)).

(** The request counter as a reader of the database finds it: the first
    [total_requests] row of [metrics], 0 when there is none. *)
Definition request_count (d : database) : Z :=
  match List.filter is_total_requests (default [] (metrics d)) with
  | r :: _ => metric_value r
  | [] => 0
  end.

(** A statistics query of [get_system_stats] fails: one of the three
    statements does not get through, or [metrics] is not there to select
    from.  The connection was operation [pg_ops w]. *)
Definition stats_query_fails (e : env) (w : world) : Prop :=
  pg_fault e (1 + pg_ops w) <> None \/
  pg_fault e (2 + pg_ops w) <> None \/
  metrics (db w) = None \/
  pg_fault e (3 + pg_ops w) <> None.

Definition int_field (k : string) (d : dict) : option Z :=
  match dict_get k d with
  | Some (JInt n) => Some n
  | _ => None
  end.

Definition str_field (k : string) (d : dict) : option string :=
  match dict_get k d with
  | Some (JStr s) => Some s
  | _ => None
  end.

(** The [total_requests] of every response, in order. *)
Definition total_requests_returned (outs : list (outcome dict)) : list Z :=
  omap (fun o => match o with
                 | Return d => int_field "total_requests" d
                 | Raise _ => None
                 end) outs.

(** The same, keeping the responses that report the database CONNECTED. *)
Definition total_requests_connected (outs : list (outcome dict)) : list Z :=
  omap (fun o => match o with
                 | Return d =>
                     if bool_decide (str_field "db_status" d = Some "CONNECTED")
                     then int_field "total_requests" d else None
                 | Raise _ => None
                 end) outs.

(** The value of the [cache_hits] counter held by Redis; a key that is not
    there counts as 0, as INCR takes it. *)
Definition cache_hits (w : world) : Z :=
  match cache w !! "cache_hits" with
  | Some en => default 0 (redis_int (value en))
  | None => 0
  end.

(** INCR on [cache_hits] will be accepted: the key is absent or holds an
    integer below the 64-bit maximum. *)
Definition counter_can_grow (w : world) : Prop :=
  match cache w !! "cache_hits" with
  | Some en => exists n, redis_int (value en) = Some n /\ n < int8_max
  | None => True
  end.

(** *** Environments and worlds to run the handlers in *)

Definition nothing_yet : world :=
  {| db := {| requests := None; metrics := None; other_tables := 0 |};
     cache := ∅; pg_ops := 0; redis_ops := 0; clock_reads := 0; stdout := [] |}.

(** Both servers answer every operation. *)
Definition calm : env :=
  {| pg_fault := fun _ => None;
     pg_activity := fun _ => 1;
     pg_version := "PostgreSQL 15";
     pg_behind := fun _ => 0%nat;
     redis_fault := fun _ => None;
     redis_info := [("redis_version", "7"); ("used_memory_human", "1M")];
     clock := fun n => 1700000000000000 + 250000 * Z.of_nat n;
     isoformat := str_of_int;
     strftime := str_of_int;
     getenv := fun _ => None;
     nodename := "webapp";
     python_version := "3.11";
     int_beyond := fun _ => None |}.

Definition with_pg_fault (f : nat -> option fault) (e : env) : env :=
  {| pg_fault := f; pg_activity := pg_activity e; pg_version := pg_version e;
     pg_behind := pg_behind e;
     redis_fault := redis_fault e; redis_info := redis_info e; clock := clock e;
     isoformat := isoformat e; strftime := strftime e; getenv := getenv e;
     nodename := nodename e; python_version := python_version e;
     int_beyond := int_beyond e |}.

Definition with_redis_fault (f : nat -> option fault) (e : env) : env :=
  {| pg_fault := pg_fault e; pg_activity := pg_activity e; pg_version := pg_version e;
     pg_behind := pg_behind e;
     redis_fault := f; redis_info := redis_info e; clock := clock e;
     isoformat := isoformat e; strftime := strftime e; getenv := getenv e;
     nodename := nodename e; python_version := python_version e;
     int_beyond := int_beyond e |}.

Definition with_pg_behind (f : nat -> nat) (e : env) : env :=
  {| pg_fault := pg_fault e; pg_activity := pg_activity e; pg_version := pg_version e;
     pg_behind := f;
     redis_fault := redis_fault e; redis_info := redis_info e; clock := clock e;
     isoformat := isoformat e; strftime := strftime e; getenv := getenv e;
     nodename := nodename e; python_version := python_version e;
     int_beyond := int_beyond e |}.

(** The servers answer the first [n] operations and none after. *)
Definition down_from (n : nat) (c : fault) : nat -> option fault :=
  fun k => if (k <? n)%nat then None else Some c.

(** The world once [initialize_database] has run at start-up. *)
Definition started : world := snd (initialize_database calm nothing_yet).

Definition visitor : request :=
  {| remote_addr := "172.18.0.1"; headers_user_agent := Some "curl" |}.

Definition later : env :=
  {| pg_fault := down_from 0 TimedOut;
     pg_activity := fun _ => 7;
     pg_version := "PostgreSQL 16";
     pg_behind := fun _ => 0%nat;
     redis_fault := fun _ => None;
     redis_info := [];
     clock := fun n => 1800000000000000 + Z.of_nat n;
     isoformat := fun t => "at " ++ str_of_int t;
     strftime := str_of_int;
     getenv := fun _ => None;
     nodename := "webapp-2";
     python_version := "3.12";
     int_beyond := fun _ => None |}.

Definition stranger : request :=
  {| remote_addr := "10.0.0.9"; headers_user_agent := None |}.

(** *** Vocabulary of the proofs *)

(** What logging one request may do to the database: nothing (the server
    was not reached, or a statement failed and nothing was committed), or one
    more row in [requests] and every [total_requests] row one higher. *)
Inductive logged (d : database) : database -> Prop :=
| logged_nothing : logged d d
| logged_row rows reqs reqs' :
    metrics d = Some rows ->
    requests d = Some reqs ->
    logged d {| requests := Some reqs'; metrics := Some (map increment rows);
                other_tables := other_tables d |}.

(** A handler left the stored data and the clock as they were. *)
Definition servers_untouched (w w' : world) : Prop :=
  db w' = db w /\ cache w' = cache w /\ clock_reads w' = clock_reads w.

Definition db_zeros (stats : dict) : Prop :=
  int_field "table_count" stats = Some 0 /\
  int_field "total_requests" stats = Some 0 /\
  int_field "db_connections" stats = Some 0.

(** The three ways the database half of the statistics comes out. *)
Inductive db_report (e : env) (w : world) (stats : dict) : Prop :=
| report_disconnected c :
    pg_fault e (pg_ops w) = Some c ->
    str_field "db_status" stats = Some "DISCONNECTED" ->
    db_zeros stats -> db_report e w stats
| report_error :
    pg_fault e (pg_ops w) = None ->
    stats_query_fails e w ->
    str_field "db_status" stats = Some "ERROR" ->
    db_zeros stats -> db_report e w stats
| report_connected :
    pg_fault e (pg_ops w) = None ->
    ~ stats_query_fails e w ->
    str_field "db_status" stats = Some "CONNECTED" ->
    int_field "table_count" stats = Some (table_count_of (db w)) ->
    int_field "total_requests" stats = Some (request_count (db w)) ->
    int_field "db_connections" stats = Some (pg_activity e (3 + pg_ops w)%nat) ->
    db_report e w stats.

Definition redis_keys_of_stats : list string :=
  ["redis_status"; "redis_status_class"; "redis_memory"; "redis_keys"; "cache_hits"].

(** The document of /health for a timestamp and the two probe outcomes. *)
Definition health_document (ts : string) (outcomes : bool * bool) : dict :=
  [ ("status", JStr (if fst outcomes && snd outcomes then "healthy" else "degraded"));
    ("timestamp", JStr ts);
    ("services", JObj [ ("database", verdict (fst outcomes));
                        ("redis", verdict (snd outcomes)) ]) ].

(** *** Routing and start-up *)

(** The routes registered with [@app.route]. *)
Inductive route : Type := Home | Health | TestDb | TestCache | ApiStats.

Definition url (r : route) : string :=
  match r with
  | Home => "/"
  | Health => "/health"
  | TestDb => "/api/test-db"
  | TestCache => "/api/test-cache"
  | ApiStats => "/api/stats"
  end.

Definition dispatch (r : route) : request -> M dict :=
  match r with
  | Home => home
  | Health => health
  | TestDb => test_db
  | TestCache => test_cache
  | ApiStats => api_stats
  end.

(** Successive requests to any routes, one at a time. *)
Fixpoint serve_all (calls : list (route * request)) (e : env) (w : world)
  : list (outcome dict) * world :=
  match calls with
  | [] => ([], w)
  | (r, req) :: calls' =>
      let (o, w') := dispatch r req e w in
      let (os, w'') := serve_all calls' e w' in
      (o :: os, w'')
  end.


(** *** Vocabulary of the further proofs *)


(** [m] relates the world it leaves to the world it found, whether it
    returns or raises. *)
Definition preserves {A} (R : world -> world -> Prop) (m : M A) : Prop :=
  forall e w, R w (snd (m e w)).

(** [m] returns in every environment and world, with a value in [Q]. *)
Definition answers {A} (m : M A) (Q : A -> Prop) : Prop :=
  forall e w, exists a w', m e w = (Return a, w') /\ Q a.

(** Whenever [m] returns, its value is in [Q]. *)
Definition yields {A} (m : M A) (Q : A -> Prop) : Prop :=
  forall e w a w', m e w = (Return a, w') -> Q a.

(** A relation between worlds that every step of bookkeeping keeps: it is
    a preorder, and counting an operation, reading the clock, printing a
    line or storing back the keys just read do not leave it. *)
Class Frame (R : world -> world -> Prop) : Prop := {
  frame_refl : forall w, R w w;
  frame_trans : forall w1 w2 w3, R w1 w2 -> R w2 w3 -> R w1 w3;
  frame_tick_pg : forall w, R w (tick_pg w);
  frame_tick_redis : forall w, R w (tick_redis w);
  frame_tick_clock : forall w, R w (tick_clock w);
  frame_write_line : forall s w, R w (write_line s w);
  frame_same_keys : forall w, R w (set_cache (cache w) w)
}.

Definition same_db (w w' : world) : Prop := db w' = db w.
Definition same_cache (w w' : world) : Prop := cache w' = cache w.
Definition same_key (k : string) (w w' : world) : Prop := cache w' !! k = cache w !! k.

(** The row [log_request] inserts for a request, as the columns store it. *)
Definition logged_row_of (endpoint : string) (req : request) : request_row :=
  {| ip_address := substring 0 45 (remote_addr req);
     user_agent := default "Unknown" (headers_user_agent req);
     endpoint := substring 0 255 endpoint |}.

(** The database once a request has been logged. *)
Definition with_logged (endpoint : string) (req : request)
    (reqs : list request_row) (rows : list metric_row) (d : database) : database :=
  {| requests := Some (reqs ++ [logged_row_of endpoint req])%list;
     metrics := Some (map increment rows);
     other_tables := other_tables d |}.

(** Some [total_requests] row cannot be incremented any more. *)
Definition counter_exhausted (rows : list metric_row) : bool :=
  existsb (fun r => is_total_requests r && (int4_max <? metric_value r + 1)) rows.

(** The three values [log_request] passes to its INSERT. *)
Definition logged_values (endpoint : string) (req : request) : list string :=
  [remote_addr req; default "Unknown" (headers_user_agent req); endpoint].

(** Everything [log_request] needs to go through: the connection and its
    three operations reach the server, the client accepts the three values,
    both tables are there, the address and the endpoint fit their columns and
    no counter row is at its maximum. *)
Definition log_commits (endpoint : string) (req : request) (e : env) (w : world) : bool :=
  bool_decide (pg_fault e (pg_ops w) = None)
  && bool_decide (pg_fault e (1 + pg_ops w) = None)
  && bool_decide (pg_fault e (2 + pg_ops w) = None)
  && bool_decide (pg_fault e (3 + pg_ops w) = None)
  && negb (existsb has_nul (logged_values endpoint req))
  && bool_decide (is_Some (varchar 45 (remote_addr req)))
  && bool_decide (is_Some (varchar 255 endpoint))
  && match requests (db w), metrics (db w) with
     | Some _, Some rows => negb (counter_exhausted rows)
     | _, _ => false
     end.

(** The database once [initialize_database] has gone through, its two
    INSERTs landing [behind1] and [behind2] rows from the end. *)
Definition initialised (behind1 behind2 : nat) (d : database) : database :=
  {| requests := Some (default [] (requests d));
     metrics :=
       Some (insert_row behind2 {| metric_name := "db_connections"; metric_value := 0 |}
               (insert_row behind1 {| metric_name := "total_requests"; metric_value := 0 |}
                  (default [] (metrics d))));
     other_tables := other_tables d |}.



Definition stats_keys : list string :=
  ["table_count"; "total_requests"; "db_connections"; "db_status"; "db_status_class";
   "redis_status"; "redis_status_class"; "redis_memory"; "redis_keys"; "cache_hits"].

(** The six operations of [initialize_database] all reach the server. *)
Definition init_goes_through (e : env) (w : world) : Prop :=
  forall k, (k < 6)%nat -> pg_fault e (k + pg_ops w) = None.

(** What the two test routes may answer. *)
Definition test_report (doc : dict) : Prop :=
  dict_get "status" doc = Some (JStr "success") \/
  (dict_get "status" doc = Some (JStr "error") /\ dict_keys doc = ["status"; "message"]).

(** The orders in which the database half sets its five keys. *)
Definition database_key_orders : list (list string) :=
  [ ["table_count"; "total_requests"; "db_connections"; "db_status"; "db_status_class"];
    ["db_status"; "db_status_class"; "table_count"; "total_requests"; "db_connections"];
    ["table_count"; "db_status"; "db_status_class"; "total_requests"; "db_connections"];
    ["table_count"; "total_requests"; "db_status"; "db_status_class"; "db_connections"] ].

(** A started deployment whose request counter is at the largest INTEGER. *)
Definition saturated : world :=
  set_db {| requests := Some [];
            metrics := Some [ {| metric_name := "total_requests"; metric_value := int4_max |} ];
            other_tables := 0 |} started.

(** A started deployment where something else wrote text under [cache_hits]. *)
Definition garbled : world :=
  set_cache (<["cache_hits" := {| value := "many"; ttl := None |}]> ∅) started.

End ComposeApp.

(** * Properties *)

Import Py ComposeApp.

#[local] Arguments execute : simpl never.
#[local] Arguments commit : simpl never.
#[local] Arguments attempt : simpl never.
#[local] Arguments redis_command : simpl never.
#[local] Arguments get_db_connection : simpl never.
#[local] Arguments get_redis_connection : simpl never.
#[local] Arguments log_request : simpl never.
#[local] Arguments get_system_stats : simpl never.
#[local] Arguments lookup : simpl never.
#[local] Arguments varchar : simpl never.
#[local] Arguments has_nul : simpl never.
#[local] Arguments insert_row : simpl never.
#[local] Arguments int_literal : simpl never.

(** Unfolds the plumbing of [M] and leaves the calls to the servers. *)
Ltac run := cbv [bind ret raise try_except attempt ask get_world modify print
                 read_clock os_getenv cur_close conn_close].

(** ** The handlers on a freshly started deployment *)

Example started_database :
  db started =
  {| requests := Some [];
     metrics := Some [ {| metric_name := "total_requests"; metric_value := 0 |};
                       {| metric_name := "db_connections"; metric_value := 0 |} ];
     other_tables := 0 |}.
Proof. reflexivity. Qed.

Example health_when_all_is_well :
  fst (health visitor calm started) =
  Return [ ("status", JStr "healthy");
           ("timestamp", JStr "1700000000000000");
           ("services", JObj [("database", JStr "healthy"); ("redis", JStr "healthy")]) ].
Proof. vm_compute. reflexivity. Qed.

Example api_stats_first_call :
  fst (api_stats visitor calm started) =
  Return [ ("table_count", JInt 2); ("total_requests", JInt 1);
           ("db_connections", JInt 1); ("db_status", JStr "CONNECTED");
           ("db_status_class", JStr "status-healthy");
           ("redis_status", JStr "CONNECTED");
           ("redis_status_class", JStr "status-healthy");
           ("redis_memory", JStr "1M"); ("redis_keys", JInt 0);
           ("cache_hits", JInt 0) ].
Proof. vm_compute. reflexivity. Qed.

Example api_stats_without_tables :
  fst (api_stats visitor calm nothing_yet) =
  Return [ ("table_count", JInt 0);
           ("db_status", JStr "ERROR"); ("db_status_class", JStr "status-error");
           ("total_requests", JInt 0); ("db_connections", JInt 0);
           ("redis_status", JStr "CONNECTED");
           ("redis_status_class", JStr "status-healthy");
           ("redis_memory", JStr "1M"); ("redis_keys", JInt 0);
           ("cache_hits", JInt 0) ].
Proof. vm_compute. reflexivity. Qed.

Example test_cache_key_expires :
  let w := snd (test_cache visitor calm started) in
  size (cache w) = 1%nat /\ size (cache (elapse 59 w)) = 1%nat /\ cache (elapse 60 w) = ∅.
Proof. vm_compute. repeat split; reflexivity. Qed.

Example int_of_str_examples :
  fst (int_of_str " 42 " calm started) = Return 42 /\
  fst (int_of_str "-1_000" calm started) = Return (-1000) /\
  fst (int_of_str "4 2" calm started) = Raise (InvalidLiteral "4 2") /\
  exn_str (InvalidLiteral "4 2") = "invalid literal for int() with base 10: '4 2'" /\
  exn_str (InvalidLiteral "it's") =
    "invalid literal for int() with base 10: " ++ String (ascii_of_nat 34) "it's"
    ++ String (ascii_of_nat 34) "".
Proof. vm_compute. repeat split; reflexivity. Qed.

Example varchar_examples :
  varchar 5 "abcde" = Some "abcde" /\ varchar 5 "abcde  " = Some "abcde" /\
  varchar 5 "abcdef" = None /\ varchar 5 "abcde x" = None.
Proof. vm_compute. repeat split; reflexivity. Qed.

(** A request whose User-Agent has a NUL character is served but not
    logged: the client refuses the value before anything is sent. *)
Example log_request_refuses_nul :
  let req := {| remote_addr := "172.18.0.1";
                headers_user_agent := Some (String "c" (String Ascii.zero EmptyString)) |} in
  let w := snd (log_request "/health" req calm started) in
  db w = db started /\ pg_ops w = S (pg_ops started) /\
  stdout w =
    [ "Database initialized successfully";
      "Request logging error: A string literal cannot contain NUL (0x00) characters." ].
Proof. vm_compute. repeat split; reflexivity. Qed.

(** An address of more than 45 characters is stored cut when what is cut
    off is blank. *)
Example log_request_cuts_blanks :
  let req := {| remote_addr := "172.18.0.1                                      ";
                headers_user_agent := None |} in
  requests (db (snd (log_request "/" req calm started))) =
    Some [ {| ip_address := "172.18.0.1                                   ";
              user_agent := "Unknown"; endpoint := "/" |} ].
Proof. vm_compute. reflexivity. Qed.

Example memory_mb_example :
  ImageApp.memory_mb {| ImageApp.now_isoformat := ""; ImageApp.memory_used := 123456789;
                        ImageApp.getenv := fun _ => None |} = 11774.
Proof. reflexivity. Qed.

(** ** Dictionaries *)

Lemma dict_get_set_eq k v d : dict_get k (dict_set k v d) = Some v.
Proof.
  induction d as [|[k' v'] d IH]; simpl.
  - now rewrite String.eqb_refl.
  - destruct (String.eqb k k') eqn:E; simpl; rewrite E; auto.
Qed.

Lemma dict_get_set_ne k k' v d : k <> k' -> dict_get k (dict_set k' v d) = dict_get k d.
Proof.
  intros Hne. induction d as [|[k0 v0] d IH]; simpl.
  - destruct (String.eqb_spec k k'); congruence.
  - destruct (String.eqb_spec k' k0); simpl.
    + subst. destruct (String.eqb_spec k k0); congruence.
    + destruct (String.eqb k k0); auto.
Qed.

Lemma int_field_get k d n : int_field k d = Some n -> dict_get k d = Some (JInt n).
Proof.
  unfold int_field. destruct (dict_get k d) as [[]|]; try discriminate. now intros [= ->].
Qed.

(** ** Decimal strings *)

Lemma int_of_string_str_of_int n :
  NilZero.int_of_string (str_of_int n) = Some (Z.to_int n).
Proof.
  unfold str_of_int. apply NilZero.isi.
  - destruct n; simpl; try discriminate.
    intros [= H]. now apply Unsigned.to_uint_nonnil in H.
  - destruct n; simpl; try discriminate.
    intros [= H]. now apply Unsigned.to_uint_nonnil in H.
Qed.

Lemma str_of_int_inj a b : str_of_int a = str_of_int b -> a = b.
Proof.
  intros H. apply (f_equal NilZero.int_of_string) in H.
  rewrite !int_of_string_str_of_int in H. injection H as H.
  now apply DecimalZ.to_int_inj.
Qed.

Lemma redis_int_str_of_int n :
  - int8_max - 1 <= n <= int8_max -> redis_int (str_of_int n) = Some n.
Proof.
  intros [Hlo Hhi]. unfold redis_int. rewrite int_of_string_str_of_int. cbv zeta.
  rewrite DecimalZ.of_to, String.eqb_refl.
  apply Z.leb_le in Hlo, Hhi. rewrite Hlo, Hhi. reflexivity.
Qed.

Lemma redis_int_range s n : redis_int s = Some n -> - int8_max - 1 <= n <= int8_max.
Proof.
  unfold redis_int. destruct (NilZero.int_of_string s) as [d|]; [|discriminate].
  cbv zeta. destruct (String.eqb _ s); simpl; [|discriminate].
  destruct (_ <=? Z.of_int d) eqn:E1; simpl; [|discriminate].
  destruct (Z.of_int d <=? _) eqn:E2; [|discriminate].
  intros [= <-]. apply Z.leb_le in E1, E2. lia.
Qed.

(** ** One call to a server *)

Lemma get_db_connection_eq e w :
  get_db_connection e w =
  match pg_fault e (pg_ops w) with
  | Some c => (Return None,
               write_line ("Database connection error: " ++ exn_str (OperationalError c)) (tick_pg w))
  | None => (Return (Some {| pending := db w |}), tick_pg w)
  end.
Proof.
  unfold get_db_connection, psycopg2_connect; run.
  destruct (pg_fault e (pg_ops w)); reflexivity.
Qed.

Lemma get_redis_connection_eq e w :
  get_redis_connection e w =
  match redis_fault e (redis_ops w) with
  | Some c => (Return None,
               write_line ("Redis connection error: " ++ exn_str (RedisError c)) (tick_redis w))
  | None => (Return (Some Redis), tick_redis w)
  end.
Proof.
  unfold get_redis_connection, ping, redis_command; run.
  destruct (redis_fault e (redis_ops w)); reflexivity.
Qed.

Lemma execute_eq conn q e w :
  execute conn q e w =
  if existsb has_nul (parameters q)
  then (Raise (ValueError "A string literal cannot contain NUL (0x00) characters."), w)
  else
    match pg_fault e (pg_ops w) with
    | Some c => (Raise (OperationalError c), tick_pg w)
    | None =>
        match run_sql q (pg_activity e (pg_ops w)) (pg_version e) (pg_behind e (pg_ops w))
                      (pending conn) with
        | inl x => (Raise x, tick_pg w)
        | inr (d, rows) => (Return ({| pending := d |}, rows), tick_pg w)
        end
    end.
Proof.
  unfold execute. destruct (existsb has_nul (parameters q)); [reflexivity|]. run.
  destruct (pg_fault e (pg_ops w)); [reflexivity|].
  destruct run_sql as [x|[d rows]]; reflexivity.
Qed.

Lemma commit_eq conn e w :
  commit conn e w =
  match pg_fault e (pg_ops w) with
  | Some c => (Raise (OperationalError c), tick_pg w)
  | None => (Return tt, set_db (pending conn) (tick_pg w))
  end.
Proof. unfold commit; run. destruct (pg_fault e (pg_ops w)); reflexivity. Qed.

Lemma redis_command_eq {A} (f : gmap string entry -> exn + gmap string entry * A) e w :
  redis_command f e w =
  match redis_fault e (redis_ops w) with
  | Some c => (Raise (RedisError c), tick_redis w)
  | None =>
      match f (cache w) with
      | inl x => (Raise x, tick_redis w)
      | inr (c, a) => (Return a, set_cache c (tick_redis w))
      end
  end.
Proof.
  unfold redis_command; run. destruct (redis_fault e (redis_ops w)); [reflexivity|].
  destruct (f (cache w)) as [x|[c a]]; reflexivity.
Qed.

(** ** Logging a request *)

(** [log_request] always returns, touches neither Redis nor the clock, and
    either leaves the database alone or commits the new row together with
    the incremented counter. *)
Lemma log_request_spec ep req e w :
  exists w', log_request ep req e w = (Return tt, w') /\
    cache w' = cache w /\ redis_ops w' = redis_ops w /\
    clock_reads w' = clock_reads w /\ logged (db w) (db w').
Proof.
  unfold log_request. unfold bind at 1. rewrite get_db_connection_eq.
  destruct (pg_fault e (pg_ops w)) as [c|].
  { eexists; split; [reflexivity|]. simpl. repeat split; constructor. }
  unfold try_except, bind at 1. rewrite execute_eq.
  destruct (existsb has_nul _).
  { eexists; split; [reflexivity|]. simpl. repeat split; constructor. }
  simpl.
  destruct (pg_fault e (S (pg_ops w))).
  { eexists; split; [reflexivity|]. simpl. repeat split; constructor. }
  destruct (requests (db w)) as [reqs|] eqn:Hr;
    [|eexists; split; [reflexivity|]; simpl; repeat split; constructor].
  destruct (varchar 45 _) as [ip|];
    [|eexists; split; [reflexivity|]; simpl; repeat split; constructor].
  destruct (varchar 255 _) as [ep'|];
    [|eexists; split; [reflexivity|]; simpl; repeat split; constructor].
  simpl. unfold bind at 1. rewrite execute_eq. simpl.
  destruct (pg_fault e (S (S (pg_ops w)))).
  { eexists; split; [reflexivity|]. simpl. repeat split; constructor. }
  destruct (metrics (db w)) as [rows|] eqn:Hm;
    [|eexists; split; [reflexivity|]; simpl; repeat split; constructor].
  destruct (existsb _ _);
    [eexists; split; [reflexivity|]; simpl; repeat split; constructor|].
  simpl. unfold bind at 1. rewrite commit_eq. simpl.
  destruct (pg_fault e (S (S (S (pg_ops w))))).
  { eexists; split; [reflexivity|]. simpl. repeat split; constructor. }
  eexists; split; [reflexivity|]. simpl. repeat split.
  eapply logged_row; eassumption.
Qed.

Lemma is_total_requests_increment r :
  is_total_requests (increment r) = is_total_requests r.
Proof.
  unfold increment. destruct (is_total_requests r) eqn:E; [|exact E].
  unfold is_total_requests in *. simpl. exact E.
Qed.

Lemma filter_increment rows :
  List.filter is_total_requests (map increment rows)
  = map increment (List.filter is_total_requests rows).
Proof.
  induction rows as [|r rows IH]; simpl; [reflexivity|].
  rewrite is_total_requests_increment.
  destruct (is_total_requests r); simpl; congruence.
Qed.

(** Logging never lowers the request counter. *)
Lemma logged_request_count d d' : logged d d' -> request_count d <= request_count d'.
Proof.
  intros [|rows reqs reqs' Hm Hr]; [lia|].
  unfold request_count. rewrite Hm. simpl. rewrite filter_increment.
  destruct (List.filter is_total_requests rows) as [|r l] eqn:E; simpl; [lia|].
  assert (Hin : In r (List.filter is_total_requests rows)) by (rewrite E; now left).
  apply filter_In in Hin. destruct Hin as [_ Hn].
  unfold increment. rewrite Hn. simpl. lia.
Qed.

(** ** Collecting the statistics *)

Lemma int_of_str_eq s e w :
  int_of_str s e w =
  match int_literal e s with
  | Some n => (Return n, w)
  | None => (Raise (InvalidLiteral s), w)
  end.
Proof. unfold int_of_str, bind, ask. destruct (int_literal e s); reflexivity. Qed.

Lemma database_stats_spec e w :
  exists stats w', database_stats [] e w = (Return stats, w') /\
    servers_untouched w w' /\ redis_ops w' = redis_ops w /\ db_report e w stats.
Proof.
  unfold database_stats, stats_query_fails. unfold bind at 1. rewrite get_db_connection_eq.
  destruct (pg_fault e (pg_ops w)) as [c|] eqn:H0.
  { do 2 eexists; split; [reflexivity|]. repeat split.
    eapply report_disconnected; [eassumption|reflexivity|repeat split]. }
  cbv zeta. unfold attempt at 1. rewrite execute_eq. simpl.
  destruct (pg_fault e (S (pg_ops w))) eqn:H1.
  { do 2 eexists; split; [reflexivity|]. repeat split.
    apply report_error; [assumption| |reflexivity|repeat split].
    left. simpl. congruence. }
  unfold attempt at 1. simpl. unfold attempt at 1. rewrite execute_eq. simpl.
  destruct (pg_fault e (S (S (pg_ops w)))) eqn:H2.
  { do 2 eexists; split; [reflexivity|]. repeat split.
    apply report_error; [assumption| |reflexivity|repeat split].
    right; left. simpl. congruence. }
  destruct (metrics (db w)) as [rows|] eqn:Hm.
  2:{ do 2 eexists; split; [reflexivity|]. repeat split.
      apply report_error; [assumption| |reflexivity|repeat split].
      right; right; left. assumption. }
  simpl.
  assert (Hcount : forall n,
     match fetchone (map (fun r => [CInt (metric_value r)]) (List.filter is_total_requests rows)) with
     | Some _ => subscript0 (fetchone (map (fun r => [CInt (metric_value r)]) (List.filter is_total_requests rows)))
     | None => ret (JInt 0)
     end e n = (Return (JInt (request_count (db w))), n)).
  { intros n. unfold request_count. rewrite Hm. simpl.
    destruct (List.filter is_total_requests rows); reflexivity. }
  unfold attempt at 1. rewrite Hcount.
  unfold attempt at 1. rewrite execute_eq. simpl.
  destruct (pg_fault e (S (S (S (pg_ops w))))) eqn:H3.
  { do 2 eexists; split; [reflexivity|]. repeat split.
    apply report_error; [assumption| |reflexivity|repeat split].
    right; right; right. simpl. congruence. }
  do 2 eexists; split; [reflexivity|]. repeat split.
  apply report_connected; try reflexivity; try assumption.
  intros [H|[H|[H|H]]]; simpl in H; congruence.
Qed.

Ltac redis_keys_kept :=
  repeat split;
  [ let k := fresh "k" in let Hk := fresh "Hk" in
    intros k Hk; simpl in Hk; rewrite !dict_get_set_ne; auto; intros ->; tauto
  | rewrite !dict_get_set_ne by discriminate; rewrite dict_get_set_eq; eauto ].

Lemma redis_stats_spec stats e w :
  exists stats' w', redis_stats stats e w = (Return stats', w') /\
    servers_untouched w w' /\ pg_ops w' = pg_ops w /\
    (forall k, ~ In k redis_keys_of_stats -> dict_get k stats' = dict_get k stats) /\
    is_Some (dict_get "redis_status" stats').
Proof.
  unfold redis_stats. unfold bind at 1. rewrite get_redis_connection_eq.
  destruct (redis_fault e (redis_ops w)) as [c|] eqn:H0.
  { do 2 eexists; split; [reflexivity|]. redis_keys_kept. }
  cbv zeta. unfold attempt at 1, info, bind, ask. rewrite redis_command_eq. simpl.
  destruct (redis_fault e (S (redis_ops w))) eqn:H1.
  { do 2 eexists; split; [reflexivity|]. redis_keys_kept. }
  unfold attempt at 1, dbsize. rewrite redis_command_eq. simpl.
  destruct (redis_fault e (S (S (redis_ops w)))) eqn:H2.
  { do 2 eexists; split; [reflexivity|]. redis_keys_kept. }
  unfold attempt at 1, get. rewrite redis_command_eq. simpl.
  destruct (redis_fault e (S (S (S (redis_ops w))))) eqn:H3.
  { do 2 eexists; split; [reflexivity|]. redis_keys_kept. }
  unfold attempt at 1.
  match goal with |- context [match ?m e ?w0 with _ => _ end] =>
    assert (Hint : (exists n, m e w0 = (Return n, w0)) \/ (exists x, m e w0 = (Raise x, w0))) end.
  { destruct (value <$> cache w !! "cache_hits") as [[|a s]|]; simpl;
      try (left; eexists; reflexivity).
    rewrite int_of_str_eq.
    destruct (int_literal e _); [left|right]; eexists; reflexivity. }
  destruct Hint as [[n Hn]|[x Hx]]; [rewrite Hn|rewrite Hx];
    (do 2 eexists; split; [reflexivity|]); redis_keys_kept.
Qed.

Lemma db_report_keep e w stats stats' :
  (forall k, ~ In k redis_keys_of_stats -> dict_get k stats' = dict_get k stats) ->
  db_report e w stats -> db_report e w stats'.
Proof.
  intros Hk.
  assert (Hs : str_field "db_status" stats' = str_field "db_status" stats).
  { unfold str_field. rewrite Hk; [reflexivity|]. simpl. intuition discriminate. }
  assert (H1 : int_field "table_count" stats' = int_field "table_count" stats).
  { unfold int_field. rewrite Hk; [reflexivity|]. simpl. intuition discriminate. }
  assert (H2 : int_field "total_requests" stats' = int_field "total_requests" stats).
  { unfold int_field. rewrite Hk; [reflexivity|]. simpl. intuition discriminate. }
  assert (H3 : int_field "db_connections" stats' = int_field "db_connections" stats).
  { unfold int_field. rewrite Hk; [reflexivity|]. simpl. intuition discriminate. }
  assert (Hz' : db_zeros stats -> db_zeros stats').
  { unfold db_zeros. rewrite H1, H2, H3. auto. }
  intros [c Hc Hst Hz | Hc Hq Hst Hz | Hc Hq Hst Ha Hb Hd].
  - eapply report_disconnected; eauto. congruence.
  - eapply report_error; eauto; congruence.
  - eapply report_connected; eauto; congruence.
Qed.

Lemma db_report_status e w stats :
  db_report e w stats -> is_Some (dict_get "db_status" stats).
Proof.
  intros [c _ Hst _ | _ _ Hst _ | _ _ Hst _ _ _]; unfold str_field in Hst;
    destruct (dict_get "db_status" stats); eauto; discriminate.
Qed.

Lemma db_report_failed e w stats :
  pg_fault e (pg_ops w) <> None \/ stats_query_fails e w ->
  db_report e w stats -> db_zeros stats.
Proof.
  intros H [c Hc Hst Hz | Hc Hq Hst Hz | Hc Hq _ _ _ _]; auto.
  destruct H; [congruence | contradiction].
Qed.

(** [get_system_stats] always returns a dict, stores nothing, and its
    database half is one of the three reports. *)
Lemma get_system_stats_spec e w :
  exists stats w', get_system_stats e w = (Return stats, w') /\
    servers_untouched w w' /\ db_report e w stats /\
    is_Some (dict_get "db_status" stats) /\ is_Some (dict_get "redis_status" stats).
Proof.
  destruct (database_stats_spec e w) as (s1 & w1 & E1 & (Hd1 & Hc1 & Hk1) & Hr1 & Hrep).
  destruct (redis_stats_spec s1 e w1) as (s2 & w2 & E2 & (Hd2 & Hc2 & Hk2) & Hp2 & Hkeep & Hhas).
  exists s2, w2. unfold get_system_stats. cbv zeta. unfold bind at 1. rewrite E1.
  unfold bind at 1. rewrite E2. split; [reflexivity|].
  assert (Hrep2 : db_report e w s2) by (eapply db_report_keep; eauto).
  repeat split; try congruence; auto.
  eapply db_report_status; eauto.
Qed.

Lemma api_stats_eq req e w :
  api_stats req e w = get_system_stats e (snd (log_request "/api/stats" req e w)).
Proof.
  destruct (log_request_spec "/api/stats" req e w) as (w1 & E & _).
  unfold api_stats, bind. rewrite E. reflexivity.
Qed.

Lemma api_stats_spec req e w :
  exists stats w', api_stats req e w = (Return stats, w') /\
    request_count (db w) <= request_count (db w') /\
    (str_field "db_status" stats = Some "CONNECTED" ->
     int_field "total_requests" stats = Some (request_count (db w'))).
Proof.
  rewrite api_stats_eq.
  destruct (log_request_spec "/api/stats" req e w) as (w1 & E & _ & _ & _ & Hlog).
  rewrite E. simpl snd.
  destruct (get_system_stats_spec e w1) as (stats & w' & E' & (Hd & _) & Hrep & _).
  exists stats, w'. split; [exact E'|]. rewrite Hd.
  split; [now apply logged_request_count|].
  destruct Hrep as [c _ Hst _ | _ _ Hst _ | _ _ _ _ Ht _]; congruence.
Qed.

(** ** The health document *)

Lemma health_eq req e w :
  exists w', health req e w =
    (Return (health_document (isoformat e (clock e (clock_reads w))) (probe_outcomes req e w)), w')
    /\ cache w' = cache w
    /\ redis_ops w' = S (redis_ops w)
    /\ pg_ops w' = S (pg_ops (snd (log_request "/health" req e w))).
Proof.
  unfold probe_outcomes.
  destruct (log_request_spec "/health" req e w) as (w1 & E & Hc & Hr & Hk & _).
  unfold health. unfold bind at 1. rewrite E. simpl snd.
  unfold bind at 1, read_clock, bind, ask, get_world, modify, ret. simpl.
  rewrite get_db_connection_eq, Hk. simpl.
  destruct (pg_fault e (pg_ops w1)) as [c|]; simpl;
    rewrite get_redis_connection_eq; simpl; rewrite Hr;
    destruct (redis_fault e (redis_ops w)) as [c'|]; simpl;
    (eexists; split; [reflexivity|]; simpl; auto).
Qed.

(** The outcomes are what the two probes return when /health calls them. *)
Lemma probe_outcomes_are_probe_results req e w :
  let w1 := snd (log_request "/health" req e w) in
  (fst (get_db_connection e w1) = Return None <-> fst (probe_outcomes req e w) = false) /\
  (fst (get_redis_connection e w1) = Return None <-> snd (probe_outcomes req e w) = false).
Proof.
  unfold probe_outcomes. cbv zeta. simpl fst. simpl snd.
  rewrite get_db_connection_eq, get_redis_connection_eq.
  split.
  - destruct (pg_fault e _); simpl; split; intros; try reflexivity; discriminate.
  - destruct (redis_fault e _); simpl; split; intros; try reflexivity; discriminate.
Qed.

(** Every combination of outcomes occurs. *)
Lemma probe_outcomes_realisable (db_up redis_up : bool) :
  exists e, probe_outcomes visitor e started = (db_up, redis_up).
Proof.
  exists (with_pg_fault (if db_up then fun _ => None else down_from 0 TimedOut)
         (with_redis_fault (if redis_up then fun _ => None else down_from 0 AuthFailure) calm)).
  destruct db_up, redis_up; vm_compute; reflexivity.
Qed.

(** ** The claims *)

(** C1.  Whatever the two probes find, /health answers with a document
    whose status is "degraded" exactly when one of its per-dependency checks
    says "unhealthy", and "healthy" exactly when none does; the checks are
    the outcomes of the database probe and of the Redis probe. *)
Theorem health_degraded_iff_a_check_failed (req : request) (e : env) (w : world) :
  exists doc w', health req e w = (Return doc, w') /\
    services_of doc = [ ("database", verdict (fst (probe_outcomes req e w)));
                        ("redis", verdict (snd (probe_outcomes req e w))) ] /\
    (dict_get "status" doc = Some (JStr "degraded") <->
       exists name, In (name, verdict false) (services_of doc)) /\
    (dict_get "status" doc = Some (JStr "healthy") <->
       ~ exists name, In (name, verdict false) (services_of doc)).
Proof.
  destruct (health_eq req e w) as (w' & E & _).
  eexists; exists w'. split; [exact E|].
  destruct (probe_outcomes req e w) as [[|] [|]]; simpl;
    (split; [reflexivity|]); split; split;
    try discriminate; try (intros _; eexists; simpl; eauto; fail);
    try (intros [name [H|[H|[]]]]; discriminate);
    try (intros H; exfalso; apply H; eexists; simpl; eauto; fail);
    try (intros _ [name [H|[H|[]]]]; discriminate).
Qed.

(** C2.  Neither probe lets a failure out: [get_db_connection] and
    [get_redis_connection] return a value in every environment, and when the
    connection attempt fails, for whichever cause (connection, authentication,
    timeout), that value is [None] and the cause has been printed. *)
Theorem probes_report_failure_as_value (e : env) (w : world) :
  (exists conn w', get_db_connection e w = (Return conn, w') /\
     (forall c : fault, pg_fault e (pg_ops w) = Some c ->
        conn = None /\
        stdout w' = (stdout w ++
          [("Database connection error: " ++ exn_str (OperationalError c))%string])%list) /\
     (pg_fault e (pg_ops w) = None -> conn <> None)) /\
  (exists r w', get_redis_connection e w = (Return r, w') /\
     (forall c : fault, redis_fault e (redis_ops w) = Some c ->
        r = None /\
        stdout w' = (stdout w ++
          [("Redis connection error: " ++ exn_str (RedisError c))%string])%list) /\
     (redis_fault e (redis_ops w) = None -> r <> None)).
Proof.
  split.
  - rewrite get_db_connection_eq.
    destruct (pg_fault e (pg_ops w)) as [c|]; do 2 eexists; (split; [reflexivity|]); split;
      try discriminate; try congruence.
    intros c' [= <-]. split; reflexivity.
  - rewrite get_redis_connection_eq.
    destruct (redis_fault e (redis_ops w)) as [c|]; do 2 eexists; (split; [reflexivity|]); split;
      try discriminate; try congruence.
    intros c' [= <-]. split; reflexivity.
Qed.

Lemma probes_report_failure_as_value_witness :
  let e := with_redis_fault (down_from 0 AuthFailure) later in
  fst (get_db_connection e started) = Return None /\
  fst (get_redis_connection e started) = Return None /\
  stdout (snd (get_db_connection e started)) =
    [ "Database initialized successfully";
      "Database connection error: could not connect to server: timeout expired" ].
Proof.
  intros e.
  destruct (probes_report_failure_as_value e started)
    as [(conn & w1 & E1 & F1 & _) (r & w2 & E2 & F2 & _)].
  destruct (F1 TimedOut eq_refl) as [-> Hout].
  destruct (F2 AuthFailure eq_refl) as [-> _].
  rewrite E1, E2. simpl. rewrite Hout. repeat split; reflexivity.
Defined.

(** C3.  Whatever the two probes find, the document of /health lists
    exactly one check per dependency, the database first and Redis second,
    each showing its own probe's outcome; both probes are run every time, so
    a database that cannot be reached does not keep Redis from being probed
    and reported. *)
Theorem health_lists_each_dependency_in_order (req : request) (e : env) (w : world) :
  exists doc w', health req e w = (Return doc, w') /\
    dict_keys (services_of doc) = ["database"; "redis"] /\
    dict_get "database" (services_of doc) = Some (verdict (fst (probe_outcomes req e w))) /\
    dict_get "redis" (services_of doc) = Some (verdict (snd (probe_outcomes req e w))) /\
    pg_ops w' = S (pg_ops (snd (log_request "/health" req e w))) /\
    redis_ops w' = S (redis_ops w).
Proof.
  destruct (health_eq req e w) as (w' & E & _ & Hr & Hp).
  eexists; exists w'. split; [exact E|].
  repeat split; auto.
Qed.

(** C4.  With both dependencies reached, /health returns the document
    status "healthy", services database "healthy" and redis "healthy"; with
    the database not reached and Redis reached it returns status "degraded",
    services database "unhealthy" and redis "healthy".  In both the document
    carries its timestamp between the two, the time of the request. *)
Theorem health_scenarios (req : request) (e : env) (w : world) :
  exists doc w', health req e w = (Return doc, w') /\
    dict_get "timestamp" doc = Some (JStr (isoformat e (clock e (clock_reads w)))) /\
    dict_keys doc = ["status"; "timestamp"; "services"] /\
    (probe_outcomes req e w = (true, true) ->
       dict_without "timestamp" doc =
         [ ("status", JStr "healthy");
           ("services", JObj [("database", JStr "healthy"); ("redis", JStr "healthy")]) ]) /\
    (probe_outcomes req e w = (false, true) ->
       dict_without "timestamp" doc =
         [ ("status", JStr "degraded");
           ("services", JObj [("database", JStr "unhealthy"); ("redis", JStr "healthy")]) ]).
Proof.
  destruct (health_eq req e w) as (w' & E & _).
  eexists; exists w'. split; [exact E|].
  split; [reflexivity|]. split; [reflexivity|].
  split; intros ->; reflexivity.
Qed.

Lemma health_scenarios_witness :
  probe_outcomes visitor calm started = (true, true) /\
  probe_outcomes visitor (with_pg_fault (down_from 0 ConnectionFailure) calm) started
    = (false, true) /\
  (exists doc w', health visitor calm started = (Return doc, w') /\
     dict_without "timestamp" doc =
       [ ("status", JStr "healthy");
         ("services", JObj [("database", JStr "healthy"); ("redis", JStr "healthy")]) ]) /\
  (exists doc w', health visitor (with_pg_fault (down_from 0 ConnectionFailure) calm) started
                  = (Return doc, w') /\
     dict_without "timestamp" doc =
       [ ("status", JStr "degraded");
         ("services", JObj [("database", JStr "unhealthy"); ("redis", JStr "healthy")]) ]).
Proof.
  split; [vm_compute; reflexivity|]. split; [vm_compute; reflexivity|]. split.
  - destruct (health_scenarios visitor calm started) as (doc & w' & E & _ & _ & HA & _).
    exists doc, w'. split; [exact E|]. apply HA. vm_compute. reflexivity.
  - destruct (health_scenarios visitor (with_pg_fault (down_from 0 ConnectionFailure) calm) started)
      as (doc & w' & E & _ & _ & _ & HB).
    exists doc, w'. split; [exact E|]. apply HB. vm_compute. reflexivity.
Defined.

(** C5, as amended.  Along any sequence of calls to /api/stats with nothing
    else writing in between, the total_requests values returned by the calls
    that report db_status CONNECTED are non-decreasing (and none of them is
    below the counter stored when the sequence starts). *)
Theorem stats_request_count_monotone_while_connected
    (reqs : list request) (e : env) (w : world) :
  Sorted Z.le (total_requests_connected (fst (serve api_stats reqs e w))) /\
  Forall (Z.le (request_count (db w)))
         (total_requests_connected (fst (serve api_stats reqs e w))).
Proof.
  revert e w. induction reqs as [|req reqs IH]; intros e w; simpl.
  - split; constructor.
  - destruct (api_stats_spec req e w) as (stats & w' & E & Hle & Hc). rewrite E.
    specialize (IH e w'). destruct (serve api_stats reqs e w') as [os w''] eqn:Es.
    simpl in *. destruct IH as [IHs IHf].
    unfold total_requests_connected in *. simpl.
    destruct (bool_decide (str_field "db_status" stats = Some "CONNECTED")) eqn:Eb.
    + apply bool_decide_eq_true in Eb. rewrite (Hc Eb). simpl. split.
      * constructor; [exact IHs|].
        destruct IHf; constructor. assumption.
      * constructor; [exact Hle|].
        eapply List.Forall_impl; [|exact IHf]. simpl. intros; lia.
    + simpl. split; [exact IHs|].
      eapply List.Forall_impl; [|exact IHf]. simpl. intros; lia.
Qed.

(** C5, as stated, fails: two calls to /api/stats, the database reachable
    during the first and not during the second, return total_requests 1 and
    then 0. *)
Lemma stats_request_count_drops_in_outage :
  ~ Sorted Z.le
      (total_requests_returned
         (fst (serve api_stats [visitor; visitor]
                 (with_pg_fault (down_from 14 ConnectionFailure) calm) started))).
Proof.
  assert (E : total_requests_returned
         (fst (serve api_stats [visitor; visitor]
                 (with_pg_fault (down_from 14 ConnectionFailure) calm) started)) = [1; 0])
    by (vm_compute; reflexivity).
  rewrite E. intros H. inversion H as [|? ? _ Hd]; subst. inversion Hd; subst. lia.
Qed.

Example stats_request_count_calm :
  total_requests_connected
    (fst (serve api_stats [visitor; visitor; visitor] calm started)) = [1; 2; 3].
Proof. vm_compute. reflexivity. Qed.

(** What a view of the home page comes to: the request is logged, the
    counter is incremented when Redis answers the ping, the statistics are
    collected, and the handler ends at [Flask.__version__]. *)
Lemma home_eq req e w :
  exists w1, log_request "/" req e (tick_clock w) = (Return tt, w1) /\
    cache w1 = cache w /\ redis_ops w1 = redis_ops w /\
    home req e w =
    match get_redis_connection e w1 with
    | (Return (Some r), w2) =>
        match incr r "cache_hits" e w2 with
        | (Return _, w3) => (Raise (AttributeError no_version), snd (get_system_stats e w3))
        | (Raise x, w3) => (Raise x, w3)
        end
    | (Return None, w2) => (Raise (AttributeError no_version), snd (get_system_stats e w2))
    | (Raise x, w2) => (Raise x, w2)
    end.
Proof.
  destruct (log_request_spec "/" req e (tick_clock w)) as (w1 & E1 & Hc1 & Hr1 & _).
  exists w1. split; [exact E1|]. split; [exact Hc1|]. split; [exact Hr1|].
  assert (Htail : forall w2, exists stats w3, get_system_stats e w2 = (Return stats, w3)).
  { intros w2. destruct (get_system_stats_spec e w2) as (stats & w3 & E & _). eauto. }
  unfold home, read_clock, os_getenv. run.
  fold (tick_clock w). rewrite E1.
  destruct (get_redis_connection e w1) as [[[r|]|x] w2]; [| |reflexivity].
  - destruct (incr r "cache_hits" e w2) as [[n|x] w3]; [|reflexivity].
    destruct (Htail w3) as (stats & w4 & E). rewrite E. reflexivity.
  - destruct (Htail w2) as (stats & w3 & E). rewrite E. reflexivity.
Qed.

(** C6, as amended.  On every view of the home page during which Redis is
    reached and accepts the INCR, the cache_hits counter goes up by exactly
    one, whatever the cache holds and whether or not anything was looked up
    in it; on a view during which Redis is not reached the counter stays as
    it is. *)
Theorem home_counts_every_view_served_by_redis (req : request) (e : env) (w : world) :
  (redis_fault e (redis_ops w) = None ->
   redis_fault e (S (redis_ops w)) = None ->
   counter_can_grow w ->
   cache_hits (snd (home req e w)) = cache_hits w + 1) /\
  (redis_fault e (redis_ops w) <> None ->
   cache_hits (snd (home req e w)) = cache_hits w).
Proof.
  destruct (home_eq req e w) as (w1 & _ & Hc1 & Hr1 & ->).
  assert (Hread : forall w2, cache (snd (get_system_stats e w2)) = cache w2).
  { intros w2. destruct (get_system_stats_spec e w2) as (stats & w3 & E & (_ & Hc & _) & _).
    now rewrite E. }
  rewrite get_redis_connection_eq, Hr1.
  split.
  - intros Hping Hincr Hgrow. rewrite Hping.
    unfold incr. rewrite redis_command_eq. simpl. rewrite Hr1, Hincr, Hc1.
    unfold counter_can_grow in Hgrow. unfold cache_hits at 2.
    destruct (cache w !! "cache_hits") as [en|] eqn:Hen.
    + destruct Hgrow as (n & Hn & Hlt). rewrite Hn.
      destruct (int8_max <=? n) eqn:Hmax; [apply Z.leb_le in Hmax; lia|].
      unfold cache_hits. simpl snd. rewrite Hread. simpl.
      rewrite lookup_insert_eq. simpl.
      pose proof (redis_int_range _ _ Hn).
      rewrite redis_int_str_of_int by lia. reflexivity.
    + unfold cache_hits. simpl snd. rewrite Hread. simpl.
      rewrite lookup_insert_eq. reflexivity.
  - intros Hping.
    destruct (redis_fault e (redis_ops w)) as [c|]; [|congruence].
    unfold cache_hits. simpl snd. rewrite Hread. simpl. rewrite Hc1. reflexivity.
Qed.

Lemma home_counts_every_view_served_by_redis_witness :
  cache_hits started = 0 /\ cache_hits (snd (home visitor calm started)) = 1.
Proof.
  destruct (home_counts_every_view_served_by_redis visitor calm started) as [H _].
  split; [reflexivity|]. rewrite H; [reflexivity | reflexivity | reflexivity | exact I].
Defined.

(** C6, as stated, fails: Redis answers the first view of the home page and
    is unreachable during the second; the second view leaves the counter
    at 1. *)
Lemma home_view_during_redis_outage_counts_nothing :
  let e := with_redis_fault (down_from 6 ConnectionFailure) calm in
  let before := snd (home visitor e started) in
  let after := snd (home visitor e before) in
  cache_hits before = 1 /\
  cache_hits after = 1 /\
  cache_hits after <> cache_hits before + 1.
Proof.
  cbv zeta. split; [vm_compute; reflexivity|]. split; [vm_compute; reflexivity|].
  vm_compute. discriminate.
Qed.

(** C7.  Two runs of /health whose probes come out the same, in whatever
    environments, worlds and requests, produce documents with the same
    fields in the same order and, the timestamp left out, the same values. *)
Theorem health_document_determined_by_probes
    (req1 req2 : request) (e1 e2 : env) (w1 w2 : world) :
  probe_outcomes req1 e1 w1 = probe_outcomes req2 e2 w2 ->
  exists doc1 w1' doc2 w2',
    health req1 e1 w1 = (Return doc1, w1') /\
    health req2 e2 w2 = (Return doc2, w2') /\
    dict_keys doc1 = dict_keys doc2 /\
    dict_without "timestamp" doc1 = dict_without "timestamp" doc2.
Proof.
  intros H.
  destruct (health_eq req1 e1 w1) as (w1' & E1 & _).
  destruct (health_eq req2 e2 w2) as (w2' & E2 & _).
  do 4 eexists. split; [exact E1|]. split; [exact E2|].
  rewrite H. split; reflexivity.
Qed.

Lemma health_document_determined_by_probes_witness :
  exists doc1 w1' doc2 w2',
    health visitor (with_pg_fault (down_from 0 AuthFailure) calm) started = (Return doc1, w1') /\
    health stranger later nothing_yet = (Return doc2, w2') /\
    dict_keys doc1 = dict_keys doc2 /\
    dict_without "timestamp" doc1 = dict_without "timestamp" doc2.
Proof.
  apply (health_document_determined_by_probes visitor stranger
           (with_pg_fault (down_from 0 AuthFailure) calm) later started nothing_yet).
  vm_compute. reflexivity.
Defined.

(** /api/test-cache answers "success" as soon as Redis serves its five
    commands. *)
Lemma test_cache_succeeds req e w :
  (forall k, (k < 5)%nat -> redis_fault e (k + redis_ops w) = None) ->
  exists doc w', test_cache req e w = (Return doc, w') /\
    dict_get "status" doc = Some (JStr "success").
Proof.
  intros Hup.
  assert (H0 := Hup 0%nat ltac:(lia)). assert (H1 := Hup 1%nat ltac:(lia)).
  assert (H2 := Hup 2%nat ltac:(lia)). assert (H3 := Hup 3%nat ltac:(lia)).
  assert (H4 := Hup 4%nat ltac:(lia)). simpl in H0, H1, H2, H3, H4.
  destruct (log_request_spec "/api/test-cache" req e w) as (w1 & E1 & Hc1 & Hr1 & Hk1 & _).
  unfold test_cache. unfold bind at 1. rewrite E1. unfold bind at 1.
  rewrite get_redis_connection_eq, Hr1, H0.
  unfold try_except, setex, get, info, dbsize, read_clock; run.
  rewrite !redis_command_eq; simpl. rewrite Hr1, H1.
  simpl; rewrite !redis_command_eq; simpl. rewrite Hr1, H2.
  simpl; rewrite !redis_command_eq; simpl. rewrite Hr1, H3.
  simpl; rewrite !redis_command_eq; simpl. rewrite Hr1, H4.
  simpl. do 2 eexists. split; reflexivity.
Qed.

(** C8.  A call to /api/test-cache that answers "success" used the key
    "test:" followed by the second of the clock at that moment, so a call in
    another second uses another key; the retrieved_value of the response is
    its test_value, read back from the key just written with 60 seconds to
    live. *)
Theorem test_cache_reads_back_what_it_wrote
    (req : request) (e : env) (w : world) (doc : dict) (w' : world) :
  test_cache req e w = (Return doc, w') ->
  dict_get "status" doc = Some (JStr "success") ->
  let t := clock e (clock_reads w) in
  dict_get "test_key" doc = Some (JStr (test_key_at t)) /\
  (forall t', Z.quot t' 1000000 <> Z.quot t 1000000 -> test_key_at t' <> test_key_at t) /\
  (exists v, dict_get "test_value" doc = Some (JStr v) /\
             dict_get "retrieved_value" doc = Some (JStr v)) /\
  (exists en, cache w' !! test_key_at t = Some en /\ ttl en = Some 60).
Proof.
  intros Hrun Hok t.
  split; [|split].
  2:{ intros t' Hne Heq. apply Hne. unfold test_key_at in Heq. simpl in Heq.
      injection Heq as Heq. now apply str_of_int_inj. }
  all: revert Hrun; unfold test_cache; unfold bind at 1;
    destruct (log_request_spec "/api/test-cache" req e w) as (w1 & E1 & Hc1 & Hr1 & Hk1 & _);
    rewrite E1; unfold bind at 1; rewrite get_redis_connection_eq;
    destruct (redis_fault e (redis_ops w1)) as [c|];
    [intros [= <- <-]; discriminate|];
    unfold try_except, setex, get, info, dbsize, read_clock; run;
    rewrite !redis_command_eq; simpl;
    destruct (redis_fault e (S (redis_ops w1))); [intros [= <- <-]; discriminate|];
    simpl; rewrite !redis_command_eq; simpl;
    destruct (redis_fault e (S (S (redis_ops w1)))); [intros [= <- <-]; discriminate|];
    simpl; rewrite !redis_command_eq; simpl;
    destruct (redis_fault e (S (S (S (redis_ops w1))))); [intros [= <- <-]; discriminate|];
    simpl; rewrite !redis_command_eq; simpl;
    destruct (redis_fault e (S (S (S (S (redis_ops w1)))))); [intros [= <- <-]; discriminate|];
    simpl; intros [= <- <-]; simpl; rewrite ?Hk1.
  - reflexivity.
  - rewrite !lookup_insert_eq. simpl. split.
    + eexists; split; reflexivity.
    + eexists; split; reflexivity.
Qed.

Lemma test_cache_reads_back_what_it_wrote_witness :
  exists doc,
    fst (test_cache visitor calm started) = Return doc /\
    dict_get "test_key" doc = Some (JStr "test:1700000000") /\
    dict_get "test_value" doc = Some (JStr "Hello from Redis at 1700000000250000") /\
    dict_get "retrieved_value" doc = Some (JStr "Hello from Redis at 1700000000250000").
Proof.
  destruct (test_cache visitor calm started) as [o w'] eqn:E.
  assert (Ho : exists doc, o = Return doc /\ dict_get "status" doc = Some (JStr "success")).
  { vm_compute in E. injection E as <- _. eexists; split; reflexivity. }
  destruct Ho as (doc & -> & Hs).
  destruct (test_cache_reads_back_what_it_wrote visitor calm started doc w' E Hs)
    as (Hk & _ & (v & Hv & Hr) & _).
  exists doc. split; [reflexivity|]. split; [exact Hk|].
  vm_compute in E. injection E as <- _. split; reflexivity.
Defined.

(** C9.  In the first application /health looks at no dependency: its
    document has the fields status, timestamp, memory_mb and version, and the
    status is "healthy" on every host, never "degraded" or "unhealthy". *)
Theorem image_health_is_constantly_healthy (h : ImageApp.host) :
  dict_get "status" (ImageApp.health h) = Some (JStr "healthy") /\
  dict_get "status" (ImageApp.health h) <> Some (JStr "degraded") /\
  dict_get "status" (ImageApp.health h) <> Some (JStr "unhealthy") /\
  dict_keys (ImageApp.health h) = ["status"; "timestamp"; "memory_mb"; "version"].
Proof. repeat split; discriminate. Qed.

(** C10.  When the database cannot be reached or one of the statistics
    queries fails, [get_system_stats] still returns, with total_requests,
    table_count and db_connections all present and equal to 0, whatever the
    counter stored in the database, which is left as it is; /api/stats
    returns that same dict. *)
Theorem stats_report_zero_when_database_fails (e : env) (w : world) :
  pg_fault e (pg_ops w) <> None \/ stats_query_fails e w ->
  exists stats w', get_system_stats e w = (Return stats, w') /\
    dict_get "total_requests" stats = Some (JInt 0) /\
    dict_get "table_count" stats = Some (JInt 0) /\
    dict_get "db_connections" stats = Some (JInt 0) /\
    db w' = db w /\
    (forall req w0, snd (log_request "/api/stats" req e w0) = w ->
       api_stats req e w0 = (Return stats, w')).
Proof.
  intros H.
  destruct (get_system_stats_spec e w) as (stats & w' & E & (Hd & _) & Hrep & _).
  exists stats, w'. split; [exact E|].
  destruct (db_report_failed _ _ _ H Hrep) as (H1 & H2 & H3).
  repeat split; auto using int_field_get.
  intros req w0 <-. rewrite api_stats_eq. exact E.
Qed.

Lemma stats_report_zero_when_database_fails_witness :
  let e := with_pg_fault (down_from 14 ConnectionFailure) calm in
  let w1 := snd (api_stats visitor e started) in
  let w := snd (log_request "/api/stats" visitor e w1) in
  request_count (db w) = 1 /\
  exists stats w', get_system_stats e w = (Return stats, w') /\
    dict_get "total_requests" stats = Some (JInt 0) /\
    dict_get "table_count" stats = Some (JInt 0) /\
    dict_get "db_connections" stats = Some (JInt 0) /\
    db w' = db w /\
    api_stats visitor e w1 = (Return stats, w').
Proof.
  intros e w1 w. split; [vm_compute; reflexivity|].
  destruct (stats_report_zero_when_database_fails e w) as (stats & w' & E & H1 & H2 & H3 & H4 & H5).
  { left. vm_compute. discriminate. }
  exists stats, w'. repeat split; auto.
Defined.

(** * Further properties *)

(** ** Relations kept by every step *)

Section Preserves.
Context (R : world -> world -> Prop) `{!Frame R}.

Lemma preserves_ret {A} (a : A) : preserves R (ret a).
Proof. intros e w. apply frame_refl. Qed.

Lemma preserves_raise {A} x : preserves R (@raise A x).
Proof. intros e w. apply frame_refl. Qed.

Lemma preserves_bind {A B} (m : M A) (k : A -> M B) :
  preserves R m -> (forall a, preserves R (k a)) -> preserves R (bind m k).
Proof.
  intros Hm Hk e w. unfold bind. specialize (Hm e w).
  destruct (m e w) as [[a|x] w1]; simpl in *; [|exact Hm].
  eapply frame_trans; [exact Hm|]. apply Hk.
Qed.

Lemma preserves_try_except {A} (body : M A) handler :
  preserves R body -> (forall x, preserves R (handler x)) ->
  preserves R (try_except body handler).
Proof.
  intros Hm Hk e w. unfold try_except. specialize (Hm e w).
  destruct (body e w) as [[a|x] w1]; simpl in *; [exact Hm|].
  eapply frame_trans; [exact Hm|]. apply Hk.
Qed.

Lemma preserves_attempt {A} stats except (m : M A) k :
  preserves R m -> (forall s, preserves R (except s)) -> (forall a, preserves R (k a)) ->
  preserves R (attempt stats except m k).
Proof.
  intros Hm He Hk e w. unfold attempt. specialize (Hm e w).
  destruct (m e w) as [[a|x] w1]; simpl in *;
    (eapply frame_trans; [exact Hm|]); [apply Hk | apply He].
Qed.

Lemma preserves_ask : preserves R ask.
Proof. intros e w. apply frame_refl. Qed.

Lemma preserves_print s : preserves R (print s).
Proof. intros e w. apply frame_write_line. Qed.

Lemma preserves_read_clock : preserves R read_clock.
Proof. intros e w. apply frame_tick_clock. Qed.

Lemma preserves_os_getenv n d : preserves R (os_getenv n d).
Proof. intros e w. apply frame_refl. Qed.

Lemma preserves_subscript d k : preserves R (subscript d k).
Proof. intros e w. unfold subscript. destruct (dict_get k d); apply frame_refl. Qed.

Lemma preserves_subscript0 r : preserves R (subscript0 r).
Proof. intros e w. destruct r as [[|c r]|]; apply frame_refl. Qed.

Lemma preserves_int_of_str s : preserves R (int_of_str s).
Proof.
  intros e w. rewrite int_of_str_eq. destruct (int_literal e s); apply frame_refl.
Qed.

Lemma preserves_get_db_connection : preserves R get_db_connection.
Proof.
  intros e w. rewrite get_db_connection_eq.
  destruct (pg_fault e (pg_ops w)); simpl; [|apply frame_tick_pg].
  eapply frame_trans; [apply frame_tick_pg | apply frame_write_line].
Qed.

Lemma preserves_execute conn q : preserves R (execute conn q).
Proof.
  intros e w. rewrite execute_eq.
  destruct (existsb has_nul (parameters q)); [apply frame_refl|].
  destruct (pg_fault e (pg_ops w)); [apply frame_tick_pg|].
  destruct run_sql as [x|[d rows]]; apply frame_tick_pg.
Qed.

Lemma preserves_conn_close conn : preserves R (conn_close conn).
Proof. intros e w. apply frame_refl. Qed.

Lemma preserves_cur_close : preserves R cur_close.
Proof. intros e w. apply frame_refl. Qed.

(** A Redis command that leaves the keys as they are. *)
Lemma preserves_redis_query {A} (f : gmap string entry -> exn + gmap string entry * A) :
  (forall c c' a, f c = inr (c', a) -> c' = c) ->
  preserves R (redis_command f).
Proof.
  intros Hf e w. rewrite redis_command_eq.
  destruct (redis_fault e (redis_ops w)); [apply frame_tick_redis|].
  destruct (f (cache w)) as [x|[c a]] eqn:E; [apply frame_tick_redis|].
  apply Hf in E. subst c. simpl.
  eapply frame_trans; [apply frame_tick_redis|]. apply (frame_same_keys (tick_redis w)).
Qed.

Lemma preserves_ping r : preserves R (ping r).
Proof. apply preserves_redis_query. now intros c c' a [= <- _]. Qed.

Lemma preserves_get r k : preserves R (get r k).
Proof. apply preserves_redis_query. now intros c c' a [= <- _]. Qed.

Lemma preserves_dbsize r : preserves R (dbsize r).
Proof. apply preserves_redis_query. now intros c c' a [= <- _]. Qed.

Lemma preserves_info r : preserves R (info r).
Proof.
  unfold info. apply preserves_bind; [apply preserves_ask|]. intros e.
  apply preserves_redis_query. now intros c c' a [= <- _].
Qed.

Lemma preserves_get_redis_connection : preserves R get_redis_connection.
Proof.
  unfold get_redis_connection. cbv zeta.
  apply preserves_try_except.
  - apply preserves_bind; [apply preserves_ping|]. intros _. apply preserves_ret.
  - intros x. apply preserves_bind; [apply preserves_print|]. intros _. apply preserves_ret.
Qed.
End Preserves.

(** One step of a proof that a handler keeps a relation. *)
Ltac frame_step :=
  first
    [ apply preserves_ret | apply preserves_raise | apply preserves_ask
    | apply preserves_print | apply preserves_read_clock | apply preserves_os_getenv
    | apply preserves_subscript | apply preserves_subscript0 | apply preserves_int_of_str
    | apply preserves_get_db_connection | apply preserves_get_redis_connection
    | apply preserves_execute | apply preserves_conn_close | apply preserves_cur_close
    | apply preserves_ping | apply preserves_get | apply preserves_dbsize
    | apply preserves_info
    | apply preserves_bind | apply preserves_try_except | apply preserves_attempt
    | match goal with |- preserves _ (match ?x with _ => _ end) => destruct x end
    | progress cbv zeta
    | match goal with |- forall _, _ => intro end ].

Ltac frame_with tac := repeat first [ tac | frame_step ]; try exact _.

#[local] Instance same_db_frame : Frame same_db.
Proof. split; unfold same_db; intros; simpl; congruence. Qed.

#[local] Instance same_cache_frame : Frame same_cache.
Proof. split; unfold same_cache; intros; simpl; congruence. Qed.

#[local] Instance same_key_frame k : Frame (same_key k).
Proof. split; unfold same_key; intros; simpl; congruence. Qed.

Lemma preserves_db_redis_command {A} (f : gmap string entry -> exn + gmap string entry * A) :
  preserves same_db (redis_command f).
Proof.
  intros e w. rewrite redis_command_eq. unfold same_db.
  destruct (redis_fault e (redis_ops w)); [reflexivity|].
  destruct (f (cache w)) as [x|[c a]]; reflexivity.
Qed.

Lemma preserves_cache_commit conn : preserves same_cache (commit conn).
Proof.
  intros e w. rewrite commit_eq. unfold same_cache.
  destruct (pg_fault e (pg_ops w)); reflexivity.
Qed.

Lemma preserves_key_commit k conn : preserves (same_key k) (commit conn).
Proof.
  intros e w. rewrite commit_eq. unfold same_key.
  destruct (pg_fault e (pg_ops w)); reflexivity.
Qed.

Lemma preserves_key_incr k r key : k <> key -> preserves (same_key k) (incr r key).
Proof.
  intros Hne e w. unfold incr. rewrite redis_command_eq. unfold same_key.
  destruct (redis_fault e (redis_ops w)); [reflexivity|].
  destruct (cache w !! key) as [en|]; simpl.
  - destruct (redis_int (value en)) as [n|]; [|reflexivity].
    destruct (int8_max <=? n); [reflexivity|]. simpl.
    now rewrite lookup_insert_ne.
  - now rewrite lookup_insert_ne.
Qed.

Lemma preserves_key_setex k r key secs v : k <> key -> preserves (same_key k) (setex r key secs v).
Proof.
  intros Hne e w. unfold setex. rewrite redis_command_eq. unfold same_key.
  destruct (redis_fault e (redis_ops w)); [reflexivity|].
  destruct (secs <=? 0); [reflexivity|]. simpl. now rewrite lookup_insert_ne.
Qed.

(** Get_system_stats, the probes and the queries store nothing. *)
Lemma get_system_stats_keeps (R : world -> world -> Prop) `{!Frame R} :
  preserves R get_system_stats.
Proof.
  unfold get_system_stats, database_stats, redis_stats. frame_with fail.
Qed.

Lemma log_request_keeps_cache ep req : preserves same_cache (log_request ep req).
Proof. unfold log_request. frame_with ltac:(apply preserves_cache_commit). Qed.

(** ** Logging, precisely *)

Lemma varchar_stored n s t : varchar n s = Some t -> t = substring 0 n s.
Proof. unfold varchar. destruct (all_spaces _); [now intros [= <-] | discriminate]. Qed.

(** One way [log_request] ends without a commit. *)
Ltac not_logged :=
  eexists; split; [reflexivity|]; simpl; rewrite ?andb_false_r; simpl;
  repeat split; eauto.

Lemma log_request_outcome ep req e w :
  exists w', log_request ep req e w = (Return tt, w') /\
    db w' = (if log_commits ep req e w
             then with_logged ep req (default [] (requests (db w)))
                                     (default [] (metrics (db w))) (db w)
             else db w) /\
    pg_ops w' = (if log_commits ep req e w then 4 + pg_ops w else pg_ops w')%nat /\
    (if log_commits ep req e w then stdout w' = stdout w
     else exists line, stdout w' = (stdout w ++ [line])%list).
Proof.
  unfold log_request, log_commits, counter_exhausted, logged_values. unfold bind at 1.
  rewrite get_db_connection_eq. simpl Nat.add.
  destruct (pg_fault e (pg_ops w)) as [c|]; [not_logged|].
  unfold try_except, bind at 1. rewrite execute_eq. unfold parameters.
  destruct (existsb has_nul _); [not_logged|].
  simpl.
  destruct (pg_fault e (S (pg_ops w))); [not_logged|].
  destruct (requests (db w)) as [reqs|] eqn:Hr; [|not_logged].
  destruct (varchar 45 (remote_addr req)) as [ip|] eqn:Hip; [|not_logged].
  destruct (varchar 255 ep) as [ep'|] eqn:Hep; [|not_logged].
  apply varchar_stored in Hip, Hep. subst ip ep'.
  simpl. unfold bind at 1. rewrite execute_eq. simpl.
  destruct (pg_fault e (S (S (pg_ops w)))); [not_logged|].
  destruct (metrics (db w)) as [rows|] eqn:Hm; [|not_logged].
  destruct (existsb _ rows); [not_logged|].
  simpl. unfold bind at 1. rewrite commit_eq. simpl.
  destruct (pg_fault e (S (S (S (pg_ops w))))); [not_logged|].
  eexists; split; [reflexivity|]. simpl. repeat split.
Qed.

Lemma run_insert_metric name d activity version behind :
  varchar 100 name = Some name ->
  run_sql (InsertMetric name 0) activity version behind d =
  match metrics d with
  | None => inl (UndefinedTable "metrics")
  | Some rows =>
      inr ({| requests := requests d;
              metrics := Some (insert_row behind {| metric_name := name; metric_value := 0 |} rows);
              other_tables := other_tables d |}, [])
  end.
Proof.
  intros Hfits. simpl. destruct (metrics d); [|reflexivity].
  rewrite Hfits. reflexivity.
Qed.

Lemma initialize_database_outcome e w :
  exists w', initialize_database e w = (Return tt, w') /\
    cache w' = cache w /\
    (db w' = db w \/
     db w' = initialised (pg_behind e (3 + pg_ops w)) (pg_behind e (4 + pg_ops w)) (db w)) /\
    (init_goes_through e w ->
     db w' = initialised (pg_behind e (3 + pg_ops w)) (pg_behind e (4 + pg_ops w)) (db w) /\
     stdout w' = (stdout w ++ ["Database initialized successfully"])%list).
Proof.
  unfold init_goes_through.
  unfold initialize_database. unfold bind at 1. rewrite get_db_connection_eq.
  destruct (pg_fault e (pg_ops w)) as [c|] eqn:H0.
  { eexists; split; [reflexivity|]. simpl. repeat split; auto.
    all: match goal with H : forall k, _ -> _ |- _ =>
           specialize (H 0%nat ltac:(lia)); simpl in H; congruence end. }
  unfold try_except, bind at 1. rewrite execute_eq. simpl.
  destruct (pg_fault e (S (pg_ops w))) eqn:H1.
  { eexists; split; [reflexivity|]. simpl. repeat split; auto.
    all: match goal with H : forall k, _ -> _ |- _ =>
           specialize (H 1%nat ltac:(lia)); simpl in H; congruence end. }
  simpl. unfold bind at 1. rewrite execute_eq. simpl.
  destruct (pg_fault e (S (S (pg_ops w)))) eqn:H2.
  { eexists; split; [reflexivity|]. simpl. repeat split; auto.
    all: match goal with H : forall k, _ -> _ |- _ =>
           specialize (H 2%nat ltac:(lia)); simpl in H; congruence end. }
  simpl. unfold bind at 1. rewrite execute_eq.
  rewrite run_insert_metric by reflexivity. simpl.
  destruct (pg_fault e (S (S (S (pg_ops w))))) eqn:H3.
  { eexists; split; [reflexivity|]. simpl. repeat split; auto.
    all: match goal with H : forall k, _ -> _ |- _ =>
           specialize (H 3%nat ltac:(lia)); simpl in H; congruence end. }
  simpl. unfold bind at 1. rewrite execute_eq.
  rewrite run_insert_metric by reflexivity. simpl.
  destruct (pg_fault e (S (S (S (S (pg_ops w)))))) eqn:H4.
  { eexists; split; [reflexivity|]. simpl. repeat split; auto.
    all: match goal with H : forall k, _ -> _ |- _ =>
           specialize (H 4%nat ltac:(lia)); simpl in H; congruence end. }
  simpl. unfold bind at 1. rewrite commit_eq. simpl.
  destruct (pg_fault e (S (S (S (S (S (pg_ops w))))))) eqn:H5.
  { eexists; split; [reflexivity|]. simpl. repeat split; auto.
    all: match goal with H : forall k, _ -> _ |- _ =>
           specialize (H 5%nat ltac:(lia)); simpl in H; congruence end. }
  eexists; split; [reflexivity|]. simpl.
  repeat split; auto.
Qed.

Lemma sublist_insert_row {A} behind (x : A) rows : rows `sublist_of` insert_row behind x rows.
Proof.
  unfold insert_row. cbv zeta.
  rewrite <- (take_drop (length rows - behind) rows) at 1.
  apply sublist_app; [reflexivity|]. apply sublist_cons. reflexivity.
Qed.

Lemma head_filter_insert_row {A} (p : A -> bool) behind (x : A) rows :
  head (List.filter p (insert_row behind x rows)) = head (List.filter p rows) \/
  (p x = true /\ head (List.filter p (insert_row behind x rows)) = Some x).
Proof.
  unfold insert_row. cbv zeta.
  assert (E : List.filter p rows =
              (List.filter p (take (length rows - behind) rows)
               ++ List.filter p (drop (length rows - behind) rows))%list)
    by now rewrite <- List.filter_app, take_drop.
  rewrite E, List.filter_app. simpl.
  destruct (List.filter p (take _ rows)) as [|r l]; simpl; [|now left].
  destruct (p x); simpl; [right|left]; auto.
Qed.

Lemma request_count_head d :
  request_count d =
  from_option metric_value 0 (head (List.filter is_total_requests (default [] (metrics d)))).
Proof. unfold request_count. destruct (List.filter _ _); reflexivity. Qed.

Lemma request_count_initialised behind1 behind2 d :
  request_count (initialised behind1 behind2 d) = request_count d \/
  request_count (initialised behind1 behind2 d) = 0.
Proof.
  rewrite !request_count_head. unfold initialised. simpl.
  destruct (head_filter_insert_row is_total_requests behind2
              {| metric_name := "db_connections"; metric_value := 0 |}
              (insert_row behind1 {| metric_name := "total_requests"; metric_value := 0 |}
                 (default [] (metrics d)))) as [-> | [H _]]; [|discriminate H].
  destruct (head_filter_insert_row is_total_requests behind1
              {| metric_name := "total_requests"; metric_value := 0 |}
              (default [] (metrics d))) as [-> | [_ ->]]; [now left | now right].
Qed.

(** ** The Redis half of the statistics *)




(** ** What every route does to the two servers *)

Lemma log_request_db_clock ep req e w :
  db (snd (log_request ep req e (tick_clock w))) = db (snd (log_request ep req e w)).
Proof.
  destruct (log_request_outcome ep req e (tick_clock w)) as (w1 & E1 & D1 & _).
  destruct (log_request_outcome ep req e w) as (w2 & E2 & D2 & _).
  rewrite E1, E2. simpl. rewrite D1, D2. reflexivity.
Qed.

Lemma read_clock_eq e w : read_clock e w = (Return (clock e (clock_reads w)), tick_clock w).
Proof. reflexivity. Qed.

Lemma preserves_db_incr r key : preserves same_db (incr r key).
Proof. apply preserves_db_redis_command. Qed.

Lemma preserves_db_setex r key secs v : preserves same_db (setex r key secs v).
Proof. apply preserves_db_redis_command. Qed.

Lemma after_log {A} ep req (rest : M A) e w :
  preserves same_db rest ->
  db (snd ((log_request ep req ;;; rest) e w)) = db (snd (log_request ep req e w)).
Proof.
  intros Hrest. destruct (log_request_spec ep req e w) as (w1 & E & _).
  unfold bind. rewrite E. apply Hrest.
Qed.

Lemma route_database (r : route) req e w :
  db (snd (dispatch r req e w)) = db (snd (log_request (url r) req e w)).
Proof.
  destruct r; simpl dispatch; simpl url.
  - rewrite <- (log_request_db_clock "/" req e w).
    unfold home. unfold bind at 1. rewrite read_clock_eq.
    apply after_log.
    frame_with ltac:(first [apply preserves_db_incr | apply get_system_stats_keeps]).
  - unfold health. apply after_log. frame_with fail.
  - unfold test_db. apply after_log. frame_with fail.
  - unfold test_cache. apply after_log. frame_with ltac:(apply preserves_db_setex).
  - unfold api_stats. apply after_log. apply get_system_stats_keeps. exact _.
Qed.

Lemma log_request_keeps_key k ep req : preserves (same_key k) (log_request ep req).
Proof. unfold log_request. frame_with ltac:(apply preserves_key_commit). Qed.

(** ** Handlers that always answer *)

Lemma answers_ret {A} (a : A) (Q : A -> Prop) : Q a -> answers (ret a) Q.
Proof. intros H e w. eauto. Qed.

Lemma answers_bind {A B} (m : M A) (k : A -> M B) (P : A -> Prop) (Q : B -> Prop) :
  answers m P -> (forall a, P a -> answers (k a) Q) -> answers (bind m k) Q.
Proof.
  intros Hm Hk e w. destruct (Hm e w) as (a & w1 & E & Ha).
  unfold bind. rewrite E. apply Hk, Ha.
Qed.

Lemma yields_ret {A} (a : A) (Q : A -> Prop) : Q a -> yields (ret a) Q.
Proof. intros H e w a' w' [= <- _]. exact H. Qed.

Lemma yields_bind {A B} (m : M A) (k : A -> M B) (Q : B -> Prop) :
  (forall a, yields (k a) Q) -> yields (bind m k) Q.
Proof.
  intros Hk e w b w'. unfold bind.
  destruct (m e w) as [[a|x] w1]; [apply Hk | discriminate].
Qed.

Lemma answers_try_except {A} (body : M A) handler (Q : A -> Prop) :
  yields body Q -> (forall x, answers (handler x) Q) -> answers (try_except body handler) Q.
Proof.
  intros Hb Hh e w. unfold try_except.
  destruct (body e w) as [[a|x] w1] eqn:E; [|apply Hh].
  exists a, w1. split; [reflexivity|]. eapply Hb, E.
Qed.

Lemma answers_log_request ep req : answers (log_request ep req) (fun _ => True).
Proof. intros e w. destruct (log_request_spec ep req e w) as (w' & E & _). eauto. Qed.

Lemma answers_get_db_connection : answers get_db_connection (fun _ => True).
Proof.
  intros e w. rewrite get_db_connection_eq. destruct (pg_fault e (pg_ops w)); eauto.
Qed.

Lemma answers_get_redis_connection : answers get_redis_connection (fun _ => True).
Proof.
  intros e w. rewrite get_redis_connection_eq. destruct (redis_fault e (redis_ops w)); eauto.
Qed.

Lemma test_db_answers req : answers (test_db req) test_report.
Proof.
  unfold test_db.
  eapply answers_bind; [apply answers_log_request|]. intros _ _.
  eapply answers_bind; [apply answers_get_db_connection|]. intros [conn|] _.
  - apply answers_try_except.
    + repeat (apply yields_bind; intro). apply yields_ret. now left.
    + intros x. apply answers_ret. right. split; reflexivity.
  - apply answers_ret. right. split; reflexivity.
Qed.

Lemma test_cache_answers req : answers (test_cache req) test_report.
Proof.
  unfold test_cache.
  eapply answers_bind; [apply answers_log_request|]. intros _ _.
  eapply answers_bind; [apply answers_get_redis_connection|]. intros [r|] _.
  - apply answers_try_except.
    + repeat (apply yields_bind; intro). apply yields_ret. now left.
    + intros x. apply answers_ret. right. split; reflexivity.
  - apply answers_ret. right. split; reflexivity.
Qed.

(** ** Logging and initialisation *)

(** X1.  [log_request] never raises and is all or nothing: it returns in
    every environment and leaves the Redis keys alone; either it commits, and
    the database gains exactly one [requests] row for this request while every
    [total_requests] row grows by one and nothing is printed, or the database
    is left as it was found and one line is printed. *)
Theorem log_request_all_or_nothing (ep : string) (req : request) (e : env) (w : world) :
  exists w', log_request ep req e w = (Return tt, w') /\
    cache w' = cache w /\
    if log_commits ep req e w
    then (exists reqs rows,
            requests (db w) = Some reqs /\ metrics (db w) = Some rows /\
            db w' = with_logged ep req reqs rows (db w)) /\
         stdout w' = stdout w
    else db w' = db w /\ exists line, stdout w' = (stdout w ++ [line])%list.
Proof.
  destruct (log_request_outcome ep req e w) as (w' & E & Hdb & _ & Hout).
  destruct (log_request_spec ep req e w) as (w'' & E' & Hc & _).
  rewrite E in E'. injection E' as <-.
  exists w'. split; [exact E|]. split; [exact Hc|].
  destruct (log_commits ep req e w) eqn:Hl; [|split; assumption].
  split; [|exact Hout].
  unfold log_commits in Hl.
  destruct (requests (db w)) as [reqs|]; [|now rewrite andb_false_r in Hl].
  destruct (metrics (db w)) as [rows|]; [|now rewrite andb_false_r in Hl].
  exists reqs, rows. repeat split. exact Hdb.
Qed.

(** X2.  Once a [total_requests] row holds the largest PostgreSQL INTEGER,
    [log_request] no longer records anything: the UPDATE overflows, the INSERT
    made before it is never committed, and the database stays as it was. *)
Theorem log_request_stops_at_counter_limit
    (ep : string) (req : request) (e : env) (w : world) (rows : list metric_row) :
  metrics (db w) = Some rows ->
  counter_exhausted rows = true ->
  db (snd (log_request ep req e w)) = db w.
Proof.
  intros Hm Hx.
  destruct (log_request_outcome ep req e w) as (w' & E & Hdb & _).
  rewrite E. simpl. rewrite Hdb.
  unfold log_commits. rewrite Hm, Hx.
  destruct (requests (db w)); simpl; now rewrite andb_false_r.
Qed.

Lemma log_request_stops_at_counter_limit_witness :
  request_count (db saturated) = int4_max /\
  db (snd (log_request "/health" visitor calm saturated)) = db saturated.
Proof.
  split; [reflexivity|].
  apply (log_request_stops_at_counter_limit "/health" visitor calm saturated
           [ {| metric_name := "total_requests"; metric_value := int4_max |} ]);
    reflexivity.
Defined.

(** X3.  [initialize_database] is not idempotent on the metrics: when its
    six operations reach the server it creates the missing tables, keeps the
    rows there are, adds a fresh [total_requests] row and a fresh
    [db_connections] row, both at 0 and each where the server puts it, and
    prints its success line. *)
Theorem initialize_database_adds_rows_each_run (e : env) (w : world) :
  init_goes_through e w ->
  exists w', initialize_database e w = (Return tt, w') /\
    db w' = initialised (pg_behind e (3 + pg_ops w)) (pg_behind e (4 + pg_ops w)) (db w) /\
    stdout w' = (stdout w ++ ["Database initialized successfully"])%list.
Proof.
  intros H. destruct (initialize_database_outcome e w) as (w' & E & _ & _ & Hok).
  exists w'. split; [exact E|]. apply Hok, H.
Qed.

Lemma initialize_database_adds_rows_each_run_witness :
  exists w', initialize_database calm started = (Return tt, w') /\
    metrics (db w') =
      Some [ {| metric_name := "total_requests"; metric_value := 0 |};
             {| metric_name := "db_connections"; metric_value := 0 |};
             {| metric_name := "total_requests"; metric_value := 0 |};
             {| metric_name := "db_connections"; metric_value := 0 |} ].
Proof.
  destruct (initialize_database_adds_rows_each_run calm started) as (w' & E & Hdb & _).
  { intros k _. reflexivity. }
  exists w'. split; [exact E|]. rewrite Hdb. reflexivity.
Defined.

(** X4.  [initialize_database] never raises and never loses a row: the
    rows of [requests] are as before, the rows of [metrics] are all still
    there in their order, and the Redis keys are untouched.  The counter the
    statistics read afterwards is the one they read before, or 0: the fresh
    [total_requests] row is the one read when the server puts it first. *)
Theorem initialize_database_keeps_the_rows (e : env) (w : world) :
  exists w', initialize_database e w = (Return tt, w') /\
    (forall reqs, requests (db w) = Some reqs -> requests (db w') = Some reqs) /\
    (forall rows, metrics (db w) = Some rows ->
       exists rows', metrics (db w') = Some rows' /\ rows `sublist_of` rows') /\
    (request_count (db w') = request_count (db w) \/ request_count (db w') = 0) /\
    cache w' = cache w.
Proof.
  destruct (initialize_database_outcome e w) as (w' & E & Hc & [Hdb|Hdb] & _);
    exists w'; (split; [exact E|]); rewrite Hdb.
  - repeat split; auto. intros rows Hm. exists rows. split; [exact Hm | reflexivity].
  - repeat split; auto.
    + intros reqs Hr. simpl. now rewrite Hr.
    + intros rows Hm. simpl. rewrite Hm. eexists. split; [reflexivity|]. simpl.
      etransitivity; apply sublist_insert_row.
    + apply request_count_initialised.
Qed.

(** A restart after which the statistics show 0 requests although one is
    recorded: the server puts the fresh row before the old one. *)
Example restart_can_reset_the_counter :
  let w := snd (api_stats visitor calm started) in
  let w' := snd (initialize_database (with_pg_behind (fun _ => 2%nat) calm) w) in
  request_count (db w) = 1 /\ request_count (db w') = 0 /\
  metrics (db w') =
    Some [ {| metric_name := "total_requests"; metric_value := 0 |};
           {| metric_name := "db_connections"; metric_value := 0 |};
           {| metric_name := "total_requests"; metric_value := 1 |};
           {| metric_name := "db_connections"; metric_value := 0 |} ].
Proof. vm_compute. repeat split; reflexivity. Qed.

(** X5.  Whatever a route goes on to answer, and also when it raises, its
    whole effect on the database is that of its [log_request]: one request
    logged when the logging commits, nothing otherwise. *)
Theorem route_logs_or_leaves_database (r : route) (req : request) (e : env) (w : world) :
  db (snd (dispatch r req e w)) =
  if log_commits (url r) req e w
  then with_logged (url r) req (default [] (requests (db w)))
                               (default [] (metrics (db w))) (db w)
  else db w.
Proof.
  rewrite route_database.
  destruct (log_request_outcome (url r) req e w) as (w' & E & Hdb & _).
  rewrite E. exact Hdb.
Qed.

Lemma route_logged r req e w : logged (db w) (db (snd (dispatch r req e w))).
Proof.
  rewrite route_database.
  destruct (log_request_spec (url r) req e w) as (w' & E & _ & _ & _ & Hl).
  rewrite E. exact Hl.
Qed.

Lemma logged_tables d d' :
  logged d d' ->
  (is_Some (requests d) -> is_Some (requests d')) /\
  (is_Some (metrics d) -> is_Some (metrics d')).
Proof. intros [|rows reqs reqs' Hm Hr]; simpl; eauto. Qed.

(** X6.  Over any sequence of requests to any routes, under any faults,
    the request counter kept in the database never decreases and no table
    disappears. *)
Theorem request_counter_never_decreases
    (calls : list (route * request)) (e : env) (w : world) :
  request_count (db w) <= request_count (db (snd (serve_all calls e w))) /\
  (is_Some (requests (db w)) -> is_Some (requests (db (snd (serve_all calls e w))))) /\
  (is_Some (metrics (db w)) -> is_Some (metrics (db (snd (serve_all calls e w))))).
Proof.
  revert w. induction calls as [|[r req] calls IH]; intros w; simpl.
  - repeat split; auto. lia.
  - pose proof (route_logged r req e w) as Hl.
    destruct (dispatch r req e w) as [o w1]. simpl in Hl.
    specialize (IH w1). destruct (serve_all calls e w1) as [os w2]. simpl in *.
    destruct IH as (IH1 & IH2 & IH3).
    pose proof (logged_request_count _ _ Hl).
    destruct (logged_tables _ _ Hl) as [Ht1 Ht2].
    repeat split; auto. lia.
Qed.

(** X7.  The routes write only the keys they own: a Redis key other than
    [cache_hits] and the [test:<timestamp>] keys has the same value and the
    same time to live after any request as before it. *)
Theorem routes_touch_only_their_keys
    (r : route) (req : request) (e : env) (w : world) (k : string) :
  k <> "cache_hits" ->
  (forall t, k <> test_key_at t) ->
  cache (snd (dispatch r req e w)) !! k = cache w !! k.
Proof.
  intros Hc Ht.
  assert (H : preserves (same_key k) (dispatch r req)).
  { destruct r; simpl dispatch;
      [unfold home | unfold health | unfold test_db | unfold test_cache | unfold api_stats];
      frame_with ltac:(first [ apply log_request_keeps_key
                             | apply get_system_stats_keeps
                             | apply preserves_key_incr; exact Hc
                             | apply preserves_key_setex; apply Ht ]). }
  apply H.
Qed.

Lemma routes_touch_only_their_keys_witness :
  let w := set_cache (<["session:42" := {| value := "alice"; ttl := Some 30 |}]> ∅) started in
  let w1 := snd (dispatch Home visitor calm w) in
  let w2 := snd (dispatch TestCache visitor calm w1) in
  cache w2 !! "session:42" = Some {| value := "alice"; ttl := Some 30 |}.
Proof.
  intros w w1 w2.
  assert (Hk : forall t, "session:42" <> test_key_at t)
    by (intros t; unfold test_key_at; simpl; discriminate).
  unfold w2. rewrite (routes_touch_only_their_keys TestCache visitor calm w1 "session:42"
                        ltac:(discriminate) Hk).
  unfold w1. rewrite (routes_touch_only_their_keys Home visitor calm w "session:42"
                        ltac:(discriminate) Hk).
  vm_compute. reflexivity.
Defined.

(** X8.  [health], [test_db], [api_stats] and [get_system_stats] only read
    from Redis: the keys are the same after them as before, under any
    faults. *)
Theorem read_only_routes_leave_redis (req : request) (e : env) (w : world) :
  cache (snd (health req e w)) = cache w /\
  cache (snd (test_db req e w)) = cache w /\
  cache (snd (api_stats req e w)) = cache w /\
  cache (snd (get_system_stats e w)) = cache w.
Proof.
  assert (Hstats : preserves same_cache get_system_stats)
    by (apply get_system_stats_keeps; exact _).
  assert (Hlog : forall ep, preserves same_cache (log_request ep req))
    by (intros ep; apply log_request_keeps_cache).
  repeat split.
  - assert (H : preserves same_cache (health req)).
    { unfold health. apply (preserves_bind same_cache); [apply Hlog|]. frame_with fail. }
    apply H.
  - assert (H : preserves same_cache (test_db req)).
    { unfold test_db. apply (preserves_bind same_cache); [apply Hlog|]. frame_with fail. }
    apply H.
  - assert (H : preserves same_cache (api_stats req)).
    { unfold api_stats. apply (preserves_bind same_cache); [apply Hlog|].
      intros _. exact Hstats. }
    apply H.
  - apply Hstats.
Qed.

(** X9.  [home] does not guard its INCR: with Redis answering the ping,
    when the INCR is refused (a fault, or a counter that is no integer
    below the 64-bit limit) the handler raises, the Redis keys are untouched
    and the request has been logged all the same. *)
Theorem home_fails_when_incr_is_refused (req : request) (e : env) (w : world) :
  redis_fault e (redis_ops w) = None ->
  redis_fault e (S (redis_ops w)) <> None \/ ~ counter_can_grow w ->
  exists x w', home req e w = (Raise x, w') /\
    cache w' = cache w /\
    db w' = db (snd (log_request "/" req e w)).
Proof.
  intros Hping Hbad.
  assert (Hdb := route_database Home req e w). simpl dispatch in Hdb. simpl url in Hdb.
  assert (Hraise : exists x w', home req e w = (Raise x, w') /\ cache w' = cache w).
  { destruct (home_eq req e w) as (w1 & E1 & Hc1 & Hr1 & ->).
    rewrite get_redis_connection_eq, Hr1, Hping.
    unfold incr. rewrite redis_command_eq. simpl. rewrite Hr1, Hc1.
    destruct (redis_fault e (S (redis_ops w))) eqn:Hincr.
    { do 2 eexists. split; [reflexivity|]. exact Hc1. }
    destruct Hbad as [Hbad|Hbad]; [congruence|].
    unfold counter_can_grow in Hbad.
    destruct (cache w !! "cache_hits") as [en|]; [|tauto].
    destruct (redis_int (value en)) as [n|].
    2:{ do 2 eexists. split; [reflexivity|]. exact Hc1. }
    destruct (int8_max <=? n) eqn:Hmax.
    { do 2 eexists. split; [reflexivity|]. exact Hc1. }
    exfalso. apply Hbad. exists n. split; [reflexivity|]. apply Z.leb_gt in Hmax. lia. }
  destruct Hraise as (x & w' & E & Hc). exists x, w'.
  rewrite E in Hdb. auto.
Qed.

Lemma home_fails_when_incr_is_refused_witness :
  exists x w', home visitor calm garbled = (Raise x, w') /\
    cache w' = cache garbled /\
    request_count (db w') = 1.
Proof.
  destruct (home_fails_when_incr_is_refused visitor calm garbled) as (x & w' & E & Hc & Hd).
  - vm_compute. reflexivity.
  - right. unfold counter_can_grow.
    replace (cache garbled !! "cache_hits") with (Some {| value := "many"; ttl := None |})
      by reflexivity.
    intros (n & Hn & _). discriminate Hn.
  - exists x, w'. split; [exact E|]. split; [exact Hc|]. rewrite Hd. vm_compute. reflexivity.
Defined.

(** X10.  No view of the home page is ever rendered: the handler ends in
    an exception every time, and the request has been logged as usual.
    Unless the INCR is refused, the exception is the AttributeError of
    [Flask.__version__], which comes once the view has been counted and the
    statistics collected. *)
Theorem home_never_renders_its_page (req : request) (e : env) (w : world) :
  exists x w', home req e w = (Raise x, w') /\
    db w' = db (snd (log_request "/" req e w)) /\
    (redis_fault e (redis_ops w) <> None \/
     (redis_fault e (S (redis_ops w)) = None /\ counter_can_grow w) ->
     x = AttributeError no_version).
Proof.
  assert (Hdb := route_database Home req e w). simpl dispatch in Hdb. simpl url in Hdb.
  assert (H : exists x w', home req e w = (Raise x, w') /\
            (redis_fault e (redis_ops w) <> None \/
             (redis_fault e (S (redis_ops w)) = None /\ counter_can_grow w) ->
             x = AttributeError no_version)).
  { destruct (home_eq req e w) as (w1 & E1 & Hc1 & Hr1 & ->).
    rewrite get_redis_connection_eq, Hr1.
    destruct (redis_fault e (redis_ops w)) as [c|] eqn:Hping.
    { do 2 eexists. split; [reflexivity|]. reflexivity. }
    unfold incr. rewrite redis_command_eq. simpl. rewrite Hr1, Hc1.
    destruct (redis_fault e (S (redis_ops w))) eqn:Hincr.
    { do 2 eexists. split; [reflexivity|]. intros [?|[? _]]; congruence. }
    unfold counter_can_grow.
    destruct (cache w !! "cache_hits") as [en|].
    - destruct (redis_int (value en)) as [n|].
      + destruct (int8_max <=? n) eqn:Hmax.
        * do 2 eexists. split; [reflexivity|].
          intros [?|[_ (m & [= <-] & Hlt)]]; [congruence|].
          apply Z.leb_le in Hmax. lia.
        * do 2 eexists. split; [reflexivity|]. reflexivity.
      + do 2 eexists. split; [reflexivity|].
        intros [?|[_ (m & Hm & _)]]; [congruence | discriminate].
    - do 2 eexists. split; [reflexivity|]. reflexivity. }
  destruct H as (x & w' & E & Hx). exists x, w'. rewrite E in Hdb. auto.
Qed.

Lemma home_never_renders_its_page_witness :
  exists w', home visitor calm started = (Raise (AttributeError no_version), w') /\
    request_count (db w') = 1.
Proof.
  destruct (home_never_renders_its_page visitor calm started) as (x & w' & E & Hd & Hx).
  rewrite (Hx (or_intror (conj eq_refl I))) in E.
  exists w'. split; [exact E|]. rewrite Hd. vm_compute. reflexivity.
Defined.



(** ** The keys of the statistics *)

Lemma dict_keys_set_new k v d :
  dict_get k d = None -> dict_keys (dict_set k v d) = (dict_keys d ++ [k])%list.
Proof.
  unfold dict_keys. induction d as [|[k' v'] d IH]; simpl; [reflexivity|].
  destruct (String.eqb k k'); [discriminate|]. intros H. simpl. now rewrite IH.
Qed.

Lemma dict_keys_set_old k v d :
  dict_get k d <> None -> dict_keys (dict_set k v d) = dict_keys d.
Proof.
  unfold dict_keys. induction d as [|[k' v'] d IH]; simpl; [congruence|].
  destruct (String.eqb k k'); [reflexivity|]. intros H. simpl. now rewrite IH.
Qed.

Lemma dict_get_not_key k d : ~ In k (dict_keys d) -> dict_get k d = None.
Proof.
  unfold dict_keys. induction d as [|[k' v'] d IH]; simpl; [reflexivity|].
  intros H. destruct (String.eqb_spec k k'); [subst; tauto|]. apply IH. tauto.
Qed.

Lemma answers_attempt {A} stats except (m : M A) k (Q : dict -> Prop) :
  (forall a, answers (k a) Q) -> answers (except stats) Q ->
  answers (attempt stats except m k) Q.
Proof.
  intros Hk He e w. unfold attempt.
  destruct (m e w) as [[a|x] w1]; [apply Hk | apply He].
Qed.

Lemma database_stats_keys :
  answers (database_stats []) (fun stats => In (dict_keys stats) database_key_orders).
Proof.
  unfold database_stats.
  eapply answers_bind; [apply answers_get_db_connection|]. intros [conn|] _; cbv zeta.
  - repeat (apply answers_attempt; [intro|]);
      apply answers_ret; simpl; tauto.
  - apply answers_ret. simpl. tauto.
Qed.

Ltac keys_of_chain Hnew :=
  repeat first
    [ rewrite dict_keys_set_old
        by (rewrite ?dict_get_set_ne by discriminate; rewrite dict_get_set_eq; discriminate)
    | rewrite dict_keys_set_new
        by (rewrite ?dict_get_set_ne by discriminate; apply Hnew; simpl; tauto) ];
  rewrite <- ?app_assoc; reflexivity.

Lemma redis_stats_keys stats :
  (forall k, In k redis_keys_of_stats -> dict_get k stats = None) ->
  answers (redis_stats stats)
          (fun stats' => dict_keys stats' = (dict_keys stats ++ redis_keys_of_stats)%list).
Proof.
  intros Hnew. unfold redis_stats.
  eapply answers_bind; [apply answers_get_redis_connection|]. intros [r|] _; cbv zeta.
  - repeat (apply answers_attempt; [intro|]);
      apply answers_ret; keys_of_chain Hnew.
  - apply answers_ret. keys_of_chain Hnew.
Qed.

(** X11.  [get_system_stats] always returns a dictionary with exactly its
    ten keys, each once, whatever fails on the way (the order depends on where
    the database half failed), and leaves database and Redis as they were. *)
Theorem stats_have_their_ten_keys (e : env) (w : world) :
  exists stats w', get_system_stats e w = (Return stats, w') /\
    Permutation (dict_keys stats) stats_keys /\
    db w' = db w /\ cache w' = cache w.
Proof.
  destruct (database_stats_keys e w) as (s1 & w1 & E1 & Hk1).
  assert (Hnew : forall k, In k redis_keys_of_stats -> dict_get k s1 = None).
  { intros k Hk. apply dict_get_not_key. simpl in Hk1, Hk.
    destruct Hk1 as [<-|[<-|[<-|[<-|[]]]]]; simpl;
      intuition (subst; discriminate). }
  destruct (redis_stats_keys s1 Hnew e w1) as (s2 & w2 & E2 & Hk2).
  exists s2, w2. split.
  { unfold get_system_stats. cbv zeta. unfold bind at 1. rewrite E1.
    unfold bind at 1. rewrite E2. reflexivity. }
  split.
  - rewrite Hk2. unfold stats_keys.
    change ["table_count"; "total_requests"; "db_connections"; "db_status"; "db_status_class";
            "redis_status"; "redis_status_class"; "redis_memory"; "redis_keys"; "cache_hits"]
      with (["table_count"; "total_requests"; "db_connections"; "db_status"; "db_status_class"]
            ++ redis_keys_of_stats)%list.
    apply Permutation_app_tail.
    simpl in Hk1. destruct Hk1 as [<-|[<-|[<-|[<-|[]]]]].
    + reflexivity.
    + apply (Permutation_app_comm ["db_status"; "db_status_class"]
                                  ["table_count"; "total_requests"; "db_connections"]).
    + apply perm_skip.
      apply (Permutation_app_comm ["db_status"; "db_status_class"]
                                  ["total_requests"; "db_connections"]).
    + do 2 apply perm_skip.
      apply (Permutation_app_comm ["db_status"; "db_status_class"] ["db_connections"]).
  - pose proof (get_system_stats_keeps same_db e w) as Hd.
    pose proof (get_system_stats_keeps same_cache e w) as Hc.
    unfold get_system_stats in Hd, Hc. cbv zeta in Hd, Hc.
    unfold bind at 1 in Hd. unfold bind at 1 in Hc. rewrite E1 in Hd, Hc.
    unfold bind at 1 in Hd. unfold bind at 1 in Hc. rewrite E2 in Hd, Hc.
    split; [exact Hd | exact Hc].
Qed.

Lemma request_count_with_logged ep req reqs rows d r :
  In r rows -> is_total_requests r = true ->
  request_count (with_logged ep req reqs rows d)
  = match List.filter is_total_requests rows with
    | r0 :: _ => metric_value r0 + 1
    | [] => 0
    end.
Proof.
  intros Hin Hr. unfold request_count, with_logged. simpl. rewrite filter_increment.
  destruct (List.filter is_total_requests rows) as [|r0 l] eqn:E; [reflexivity|].
  assert (Hin0 : In r0 (List.filter is_total_requests rows)) by (rewrite E; now left).
  apply filter_In in Hin0. destruct Hin0 as [_ Hn].
  simpl. unfold increment. rewrite Hn. reflexivity.
Qed.

(** X13.  [api_stats] counts its own request: when its logging commits
    and the database stays up for the statistics, the [total_requests] it
    reports is the counter before the request plus one, which is also what
    the database then holds. *)
Theorem api_stats_counts_itself
    (req : request) (e : env) (w : world) (rows : list metric_row) (r : metric_row) :
  log_commits "/api/stats" req e w = true ->
  (forall k, (4 <= k < 8)%nat -> pg_fault e (k + pg_ops w) = None) ->
  metrics (db w) = Some rows -> In r rows -> is_total_requests r = true ->
  exists stats w', api_stats req e w = (Return stats, w') /\
    dict_get "db_status" stats = Some (JStr "CONNECTED") /\
    dict_get "total_requests" stats = Some (JInt (request_count (db w) + 1)) /\
    request_count (db w') = request_count (db w) + 1.
Proof.
  intros Hlog Hup Hm Hin Hr.
  assert (H4 := Hup 4%nat ltac:(lia)). assert (H5 := Hup 5%nat ltac:(lia)).
  assert (H6 := Hup 6%nat ltac:(lia)). assert (H7 := Hup 7%nat ltac:(lia)).
  simpl in H4, H5, H6, H7.
  destruct (log_request_outcome "/api/stats" req e w) as (w1 & E1 & Hdb & Hops & _).
  rewrite Hlog in Hdb, Hops. rewrite Hm in Hdb. simpl in Hdb, Hops.
  assert (Hcount : request_count (db w1) = request_count (db w) + 1).
  { rewrite Hdb, (request_count_with_logged _ _ _ _ _ r Hin Hr).
    unfold request_count. rewrite Hm. simpl.
    destruct (List.filter is_total_requests rows) as [|r0 l] eqn:E; [|reflexivity].
    assert (Hin' : In r (List.filter is_total_requests rows))
      by (apply filter_In; auto).
    rewrite E in Hin'. destruct Hin'. }
  rewrite api_stats_eq, E1. simpl snd.
  destruct (get_system_stats_spec e w1) as (stats & w' & E & (Hd & _) & Hrep & _).
  exists stats, w'. split; [exact E|]. rewrite Hd, <- Hcount.
  destruct Hrep as [c F0 _ _ | F0 Hq _ _ | F0 Hq Hs _ Ht _]; rewrite Hops in *.
  - congruence.
  - exfalso. unfold stats_query_fails in Hq. rewrite Hops, Hdb in Hq. simpl in Hq.
    destruct Hq as [?|[?|[?|?]]]; congruence.
  - unfold str_field in Hs. destruct (dict_get "db_status" stats) as [[]|]; try discriminate.
    injection Hs as ->. split; [reflexivity|]. split; [|reflexivity].
    now apply int_field_get.
Qed.

Lemma api_stats_counts_itself_witness :
  exists stats w', api_stats visitor calm started = (Return stats, w') /\
    dict_get "total_requests" stats = Some (JInt 1) /\
    request_count (db w') = 1.
Proof.
  destruct (api_stats_counts_itself visitor calm started
              [ {| metric_name := "total_requests"; metric_value := 0 |};
                {| metric_name := "db_connections"; metric_value := 0 |} ]
              {| metric_name := "total_requests"; metric_value := 0 |})
    as (stats & w' & E & _ & Ht & Hc).
  - reflexivity.
  - intros k _. reflexivity.
  - reflexivity.
  - now left.
  - reflexivity.
  - exists stats, w'. split; [exact E|]. split; assumption.
Defined.

(** X14.  Every route but [home] answers whatever fails: [health],
    [test_db], [test_cache] and [api_stats] return a document in every
    environment and world, and the two test routes answer either a success
    or an error document of exactly [status] and [message]. *)
Theorem every_route_but_home_answers (r : route) (req : request) (e : env) (w : world) :
  r <> Home ->
  exists doc w', dispatch r req e w = (Return doc, w') /\
    (r = TestDb \/ r = TestCache -> test_report doc).
Proof.
  intros Hr. destruct r; [congruence| | | |]; simpl dispatch.
  - destruct (health_eq req e w) as (w' & E & _).
    do 2 eexists. split; [exact E|]. intros [?|?]; discriminate.
  - destruct (test_db_answers req e w) as (doc & w' & E & Hq). eauto.
  - destruct (test_cache_answers req e w) as (doc & w' & E & Hq). eauto.
  - rewrite api_stats_eq.
    destruct (get_system_stats_spec e (snd (log_request "/api/stats" req e w)))
      as (stats & w' & E & _).
    do 2 eexists. split; [exact E|]. intros [?|?]; discriminate.
Qed.

Lemma every_route_but_home_answers_witness :
  exists doc w', dispatch TestDb visitor (with_pg_fault (down_from 8 TimedOut) calm) started
                 = (Return doc, w') /\ test_report doc.
Proof.
  destruct (every_route_but_home_answers TestDb visitor
              (with_pg_fault (down_from 8 TimedOut) calm) started ltac:(discriminate))
    as (doc & w' & E & Hq).
  exists doc, w'. split; [exact E|]. apply Hq. now left.
Defined.

(** X15.  Without a Redis connection [test_cache] answers the fixed error
    document, writes no key, and has logged the request as usual. *)
Theorem test_cache_without_redis (req : request) (e : env) (w : world) :
  redis_fault e (redis_ops w) <> None ->
  exists w', test_cache req e w =
             (Return [ ("status", JStr "error");
                       ("message", JStr "Cannot connect to Redis") ], w') /\
    cache w' = cache w /\
    db w' = db (snd (log_request "/api/test-cache" req e w)).
Proof.
  intros Hdown.
  destruct (log_request_spec "/api/test-cache" req e w) as (w1 & E1 & Hc1 & Hr1 & _).
  unfold test_cache. unfold bind at 1. rewrite E1. unfold bind at 1.
  rewrite get_redis_connection_eq, Hr1.
  destruct (redis_fault e (redis_ops w)) as [c|]; [|congruence].
  eexists. split; [reflexivity|]. simpl. auto.
Qed.

Lemma test_cache_without_redis_witness :
  exists w', test_cache visitor (with_redis_fault (down_from 0 TimedOut) calm) started =
             (Return [ ("status", JStr "error");
                       ("message", JStr "Cannot connect to Redis") ], w') /\
    cache w' = ∅ /\ request_count (db w') = 1.
Proof.
  destruct (test_cache_without_redis visitor (with_redis_fault (down_from 0 TimedOut) calm) started)
    as (w' & E & Hc & Hd).
  - discriminate.
  - exists w'. split; [exact E|]. rewrite Hc, Hd. split; reflexivity.
Defined.

(** X16.  A successful [test_cache] has written exactly one key, named
    after the clock reading, holding the value it reports; [total_keys] is
    the number of keys after the write; the key lives for sixty seconds and is
    gone afterwards. *)
Theorem test_cache_writes_one_key
    (req : request) (e : env) (w : world) (doc : dict) (w' : world) :
  test_cache req e w = (Return doc, w') ->
  dict_get "status" doc = Some (JStr "success") ->
  let key := test_key_at (clock e (clock_reads w)) in
  exists v,
    dict_get "test_value" doc = Some (JStr v) /\
    cache w' = <[key := {| value := v; ttl := Some 60 |}]> (cache w) /\
    dict_get "total_keys" doc = Some (JInt (Z.of_nat (size (cache w')))) /\
    (forall secs, secs < 60 ->
       cache (elapse secs w') !! key = Some {| value := v; ttl := Some (60 - secs) |}) /\
    (forall secs, 60 <= secs -> cache (elapse secs w') !! key = None).
Proof.
  intros Hrun Hok key. revert Hrun. unfold test_cache. unfold bind at 1.
  destruct (log_request_spec "/api/test-cache" req e w) as (w1 & E1 & Hc1 & Hr1 & Hk1 & _).
  rewrite E1. unfold bind at 1. rewrite get_redis_connection_eq.
  destruct (redis_fault e (redis_ops w1)) as [c|]; [intros [= <- <-]; discriminate|].
  unfold try_except, setex, get, info, dbsize, read_clock; run.
  rewrite !redis_command_eq; simpl.
  destruct (redis_fault e (S (redis_ops w1))); [intros [= <- <-]; discriminate|].
  simpl; rewrite !redis_command_eq; simpl.
  destruct (redis_fault e (S (S (redis_ops w1)))); [intros [= <- <-]; discriminate|].
  simpl; rewrite !redis_command_eq; simpl.
  destruct (redis_fault e (S (S (S (redis_ops w1))))); [intros [= <- <-]; discriminate|].
  simpl; rewrite !redis_command_eq; simpl.
  destruct (redis_fault e (S (S (S (S (redis_ops w1)))))); [intros [= <- <-]; discriminate|].
  simpl; intros [= <- <-]; simpl. rewrite Hk1, Hc1. fold key.
  eexists. split; [reflexivity|]. split; [reflexivity|]. split; [reflexivity|].
  split; intros secs Hs; rewrite lookup_omap, lookup_insert_eq; simpl; unfold age; simpl.
  - destruct (Z.ltb_spec secs 60); [reflexivity | lia].
  - destruct (Z.ltb_spec secs 60); [lia | reflexivity].
Qed.

Lemma test_cache_writes_one_key_witness :
  exists doc w', test_cache visitor calm started = (Return doc, w') /\
    dict_get "total_keys" doc = Some (JInt 1) /\ size (cache w') = 1%nat.
Proof.
  destruct (test_cache visitor calm started) as [o w'] eqn:E.
  assert (Ho : exists doc, o = Return doc /\ dict_get "status" doc = Some (JStr "success")).
  { vm_compute in E. injection E as <- _. eexists; split; reflexivity. }
  destruct Ho as (doc & -> & Hs).
  destruct (test_cache_writes_one_key visitor calm started doc w' E Hs) as (v & _ & Hc & Hk & _).
  exists doc, w'. split; [reflexivity|].
  assert (Hsize : size (cache w') = 1%nat).
  { rewrite Hc. replace (cache started) with (∅ : gmap string entry) by reflexivity.
    rewrite insert_empty. apply map_size_singleton. }
  rewrite Hk, Hsize. split; reflexivity.
Defined.

(** X17.  A successful [test_db] reports the number of rows of [requests]
    as the database holds them after the request, and the server's version;
    when its own logging committed, the last of these rows is the request
    itself. *)
Theorem test_db_counts_the_request_rows
    (req : request) (e : env) (w : world) (doc : dict) (w' : world) :
  test_db req e w = (Return doc, w') ->
  dict_get "status" doc = Some (JStr "success") ->
  exists reqs,
    requests (db w') = Some reqs /\
    dict_get "total_requests" doc = Some (JInt (Z.of_nat (length reqs))) /\
    dict_get "database_version" doc = Some (JStr (pg_version e)) /\
    (log_commits "/api/test-db" req e w = true ->
     last reqs = Some (logged_row_of "/api/test-db" req)).
Proof.
  intros Hrun Hok.
  assert (Hdb := route_database TestDb req e w).
  simpl dispatch in Hdb. simpl url in Hdb. rewrite Hrun in Hdb. simpl snd in Hdb.
  destruct (log_request_outcome "/api/test-db" req e w) as (wl & El & Hl & _).
  rewrite El in Hdb. simpl snd in Hdb. rewrite Hl in Hdb. clear wl El Hl.
  revert Hrun. unfold test_db. unfold bind at 1.
  destruct (log_request_spec "/api/test-db" req e w) as (w1 & E1 & _).
  rewrite E1. unfold bind at 1. rewrite get_db_connection_eq.
  destruct (pg_fault e (pg_ops w1)) as [c|]; [intros [= <- <-]; discriminate|].
  unfold try_except. unfold bind at 1. rewrite execute_eq. simpl.
  destruct (pg_fault e (S (pg_ops w1))); [intros [= <- <-]; discriminate|].
  simpl. unfold bind at 1. simpl. unfold bind at 1. rewrite execute_eq. simpl.
  destruct (pg_fault e (S (S (pg_ops w1)))); [intros [= <- <-]; discriminate|].
  destruct (requests (db w1)) as [reqs|] eqn:Hr; [|intros [= <- <-]; discriminate].
  simpl. intros [= <- <-]. simpl in *.
  exists reqs. repeat split; auto.
  intros Hl. rewrite Hl in Hdb. rewrite Hdb in Hr. simpl in Hr. injection Hr as <-.
  apply last_snoc.
Qed.

Lemma test_db_counts_the_request_rows_witness :
  exists doc w', test_db visitor calm started = (Return doc, w') /\
    dict_get "total_requests" doc = Some (JInt 1) /\
    requests (db w') = Some [logged_row_of "/api/test-db" visitor].
Proof.
  destruct (test_db visitor calm started) as [o w'] eqn:E.
  assert (Ho : exists doc, o = Return doc /\ dict_get "status" doc = Some (JStr "success")).
  { vm_compute in E. injection E as <- _. eexists; split; reflexivity. }
  destruct Ho as (doc & -> & Hs).
  destruct (test_db_counts_the_request_rows visitor calm started doc w' E Hs)
    as (reqs & Hr & Ht & _).
  exists doc, w'. split; [reflexivity|].
  assert (Hreqs : requests (db w') = Some [logged_row_of "/api/test-db" visitor]).
  { vm_compute in E. injection E as _ <-. reflexivity. }
  rewrite Hreqs in Hr. injection Hr as <-. split; [exact Ht | exact Hreqs].
Defined.

(** X18.  Without a database connection after the logging, [test_db]
    answers the fixed error document and changes nothing further. *)
Theorem test_db_without_database (req : request) (e : env) (w : world) :
  pg_fault e (pg_ops (snd (log_request "/api/test-db" req e w))) <> None ->
  exists w', test_db req e w =
             (Return [ ("status", JStr "error");
                       ("message", JStr "Cannot connect to database") ], w') /\
    db w' = db (snd (log_request "/api/test-db" req e w)) /\
    cache w' = cache w.
Proof.
  intros Hdown.
  destruct (log_request_spec "/api/test-db" req e w) as (w1 & E1 & Hc1 & _).
  rewrite E1 in *. simpl snd in *.
  unfold test_db. unfold bind at 1. rewrite E1. unfold bind at 1.
  rewrite get_db_connection_eq.
  destruct (pg_fault e (pg_ops w1)) as [c|]; [|congruence].
  eexists. split; [reflexivity|]. simpl. auto.
Qed.

Lemma test_db_without_database_witness :
  exists w', test_db visitor (with_pg_fault (down_from 10 AuthFailure) calm) started =
             (Return [ ("status", JStr "error");
                       ("message", JStr "Cannot connect to database") ], w') /\
    request_count (db w') = 1.
Proof.
  destruct (test_db_without_database visitor (with_pg_fault (down_from 10 AuthFailure) calm) started)
    as (w' & E & Hd & _).
  - vm_compute. discriminate.
  - exists w'. split; [exact E|]. rewrite Hd. vm_compute. reflexivity.
Defined.

(** ** The first application *)

Lemma round_half_even_close n d :
  0 < d -> 2 * Z.abs (round_half_even n d * d - n) <= d.
Proof.
  intros Hd. unfold round_half_even. cbv zeta.
  pose proof (Z.div_mod n d ltac:(lia)) as Hn.
  pose proof (Z.mod_pos_bound n d Hd) as Hr.
  destruct (Z.ltb_spec (2 * (n mod d)) d); [nia|].
  destruct (Z.ltb_spec d (2 * (n mod d))); [nia|].
  destruct (Z.even (n / d)); nia.
Qed.

Lemma round_half_even_tie n d :
  0 < d -> 2 * (n mod d) = d -> Z.even (round_half_even n d) = true.
Proof.
  intros Hd Ht. unfold round_half_even. cbv zeta.
  destruct (Z.ltb_spec (2 * (n mod d)) d); [lia|].
  destruct (Z.ltb_spec d (2 * (n mod d))); [lia|].
  destruct (Z.even (n / d)) eqn:E; [exact E|].
  rewrite Z.even_add, E. reflexivity.
Qed.

(** X19.  The [memory_mb] of the first application is the memory in use
    in MiB rounded to the nearest hundredth, ties to even; [health] reports
    it, and so does [home] whenever it renders; [info] reports nothing, as it
    always ends in the AttributeError of [Flask.__version__]. *)
Theorem memory_mb_is_the_nearest_hundredth (h : ImageApp.host) (p : ImageApp.platform) :
  0 <= ImageApp.memory_used h < 2 ^ 53 ->
  let m := ImageApp.memory_mb h in
  2 * Z.abs (m * 1048576 - ImageApp.memory_used h * 100) <= 1048576 /\
  (2 * ((ImageApp.memory_used h * 100) mod 1048576) = 1048576 -> Z.even m = true) /\
  dict_get "memory_mb" (ImageApp.health h) = Some (JFixed2 m) /\
  match ImageApp.home h p with
  | inr page => dict_get "memory_mb" page = Some (JFixed2 m)
  | inl x => x = ImageApp.IndexError /\ ImageApp.first_word (ImageApp.sys_version p) = None
  end /\
  ImageApp.info h p = inl (ImageApp.AttributeError no_version).
Proof.
  intros _ m. unfold m, ImageApp.memory_mb.
  split; [apply (round_half_even_close _ (1024 * 1024)); lia|].
  split; [apply (round_half_even_tie _ (1024 * 1024)); lia|].
  split; [reflexivity|]. split; [|reflexivity].
  unfold ImageApp.home.
  destruct (ImageApp.first_word (ImageApp.sys_version p)); [reflexivity | split; reflexivity].
Qed.

Lemma memory_mb_is_the_nearest_hundredth_witness :
  let h := {| ImageApp.now_isoformat := "2024-01-01T00:00:00"; ImageApp.memory_used := 123456789;
              ImageApp.getenv := fun _ => None |} in
  let p := {| ImageApp.sys_version := "3.11.4 (main)"; ImageApp.nodename := "web";
              ImageApp.cpu_count := Some 4; ImageApp.now_strftime := "2024-01-01 00:00:00" |} in
  ImageApp.memory_mb h = 11774 /\
  dict_get "memory_mb" (ImageApp.health h) = Some (JFixed2 11774) /\
  (exists page, ImageApp.home h p = inr page /\
                dict_get "memory_mb" page = Some (JFixed2 11774)) /\
  ImageApp.info h p = inl (ImageApp.AttributeError no_version).
Proof.
  intros h p.
  destruct (memory_mb_is_the_nearest_hundredth h p) as (_ & _ & Hh & Hp & Hi).
  { vm_compute. split; [discriminate | reflexivity]. }
  split; [reflexivity|]. split; [exact Hh|]. split; [|exact Hi].
  eexists. split; [reflexivity|]. exact Hp.
Defined.

